(** * EDL parser: record extraction and folder generation

    A shallow embedding of [src/EDLParser.py] (class [EDLParserApp]):
    the line-by-line extraction of [parse_edl_file] and the directory
    creation of [generate_folders], with the Python built-ins they call.

    - Python strings are lists of characters.  A character is a code
      point below 256, so that [str.isspace] and the regular expression
      class [\d] are the ones of Latin-1 text.
    - An expression that can raise is a [result]; the loops thread the
      list of records, or the file system, and keep what was done before
      an exception.
    - A file is read as text, line by line; a file whose bytes are not
      text raises [UnicodeDecodeError] after the lines read before.
    - The paths are POSIX paths.  The file system holds directories
      only; [os.path.join], [os.path.split], [os.path.exists],
      [os.mkdir] and [os.makedirs] follow the Python library and the
      lookup of a path follows the Linux kernel, with its limits on the
      length of a name (255 bytes) and of a path (4095 bytes).
    - The widgets are left out, but for the rows of the table, which
      [load_edl_data] fills from the list of records. *)

From Stdlib Require Import Ascii String.
From stdpp Require Import base tactics list gmap.

Local Open Scope list_scope.

(** ** Python values *)

Abbreviation str := (list ascii).

(** The characters of a string literal. *)
Definition py (s : string) : str := list_ascii_of_string s.

(** The line break, the carriage return, the separator of paths and the
    character no path may hold. *)
Definition LF : ascii := "010"%char.
Definition CR : ascii := "013"%char.
Definition SEP : ascii := "/"%char.
Definition NUL : ascii := "000"%char.

(** Exceptions the modelled code can raise.  [IOError] is the one line
    201 raises; [OSError] is the one of a name or path too long for the
    kernel (errno ENAMETOOLONG); [UnicodeDecodeError] is the one of a
    file whose bytes are not text. *)
Inductive exn : Set :=
  | IndexError
  | IOError
  | ValueError
  | FileExistsError
  | FileNotFoundError
  | RecursionError
  | OSError
  | UnicodeDecodeError.

(** The outcome of an expression or statement: a value, or a raised
    exception. *)
Inductive result (A : Type) : Type :=
  | Ok (a : A)
  | Raise (e : exn).
Arguments Ok {A} a.
Arguments Raise {A} e.

Global Instance result_ret : MRet result := fun _ a => Ok a.
Global Instance result_bind : MBind result := fun _ _ f m =>
  match m with
  | Ok a => f a
  | Raise e => Raise e
  end.

(** ** String built-ins *)

Module Py.

(** [str.isspace] on one character: TAB..CR, FS..US, space, NEL, NBSP. *)
Definition isspace (c : ascii) : bool :=
  let n := nat_of_ascii c in
  ((9 <=? n) && (n <=? 13)) || ((28 <=? n) && (n <=? 32))
  || (n =? 133) || (n =? 160).

(** [\d] of the [re] module on a character below 256. *)
Definition isdigit (c : ascii) : bool :=
  let n := nat_of_ascii c in (48 <=? n) && (n <=? 57).

Fixpoint lstrip (s : str) : str :=
  match s with
  | [] => []
  | c :: s' => if isspace c then lstrip s' else s
  end.

Definition rstrip (s : str) : str := rev (lstrip (rev s)).

(** [s.strip()] *)
Definition strip (s : str) : str := lstrip (rstrip s).

(** [s.startswith(p)] *)
Fixpoint startswith (s p : str) {struct p} : bool :=
  match p, s with
  | [], _ => true
  | _ :: _, [] => false
  | x :: p', c :: s' => Ascii.eqb c x && startswith s' p'
  end.

(** [s.endswith(p)] *)
Definition endswith (s p : str) : bool := startswith (rev s) (rev p).

(** [s.split(sep)] for a non-empty [sep]: the pieces between the
    occurrences of [sep], found from the left and not overlapping.
    [skip] counts the characters of a separator still to pass over and
    [cur] holds the current piece, reversed. *)
Fixpoint split_from (sep : str) (skip : nat) (cur : str) (s : str)
  : list str :=
  match s with
  | [] => [rev cur]
  | c :: s' =>
      match skip with
      | S k => split_from sep k cur s'
      | O =>
          if startswith s sep
          then rev cur :: split_from sep (length sep - 1) [] s'
          else split_from sep 0 (c :: cur) s'
      end
  end.

Definition split (s sep : str) : list str := split_from sep 0 [] s.

(** [l[i]] for [0 <= i]. *)
Definition getitem {A : Type} (l : list A) (i : nat) : result A :=
  match l !! i with
  | Some x => Ok x
  | None => Raise IndexError
  end.

(** [s.zfill(width)]: zeros on the left, after a leading sign. *)
Definition zfill (s : str) (width : nat) : str :=
  if width <=? length s then s
  else
    let zeros := replicate (width - length s) "0"%char in
    match s with
    | c :: s' =>
        if Ascii.eqb c "+"%char || Ascii.eqb c "-"%char
        then c :: zeros ++ s'
        else zeros ++ s
    | [] => zeros
    end.

(** [re.match(r'^s\d{2}e\d{2,3}$', s)] as a truth value: [$] matches
    at the end of the string and before a newline that ends it. *)
Definition at_end (s : str) : bool :=
  match s with
  | [] => true
  | [c] => Ascii.eqb c LF
  | _ => false
  end.

Definition re_match_pattern (s : str) : bool :=
  match s with
  | c0 :: d1 :: d2 :: c3 :: d4 :: d5 :: rest =>
      Ascii.eqb c0 "s"%char && isdigit d1 && isdigit d2
      && Ascii.eqb c3 "e"%char && isdigit d4 && isdigit d5
      && (match rest with
          | d6 :: rest' => (isdigit d6 && at_end rest') || at_end rest
          | [] => true
          end)
  | _ => false
  end.

End Py.

(** ** Reading a text file line by line *)

(** [for line in file] on a file opened in text mode with the default
    [newline=None]: a line ends at LF, CR or CR LF, each handed over as
    LF; the last line may lack one.  [cur] is the current line,
    reversed. *)
Fixpoint readlines_from (cur : str) (content : str) : list str :=
  match content with
  | [] => match cur with [] => [] | _ => [rev cur] end
  | c :: rest =>
      if Ascii.eqb c LF then rev (LF :: cur) :: readlines_from [] rest
      else if Ascii.eqb c CR then
        match rest with
        | c' :: rest' =>
            if Ascii.eqb c' LF
            then rev (LF :: cur) :: readlines_from [] rest'
            else rev (LF :: cur) :: readlines_from [] rest
        | [] => [rev (LF :: cur)]
        end
      else readlines_from (c :: cur) rest
  end.

Definition readlines (content : str) : list str := readlines_from [] content.

(** ** The extractor: [EDLParserApp.parse_edl_file] *)

(** A row of [clip_data]: the tuple [(clip_name, shot, episode, season)]. *)
Record ClipRecord : Set := mkClip {
  clip_name : str;
  shot : str;
  episode : str;
  season : str
}.

(** Lines 179-182: the episode number padded to three digits. *)
Definition pad_episode (episode : str) : result str :=
  if length episode <=? 3 then
    e_number ← Py.getitem (Py.split episode (py "e")) 1;
    let e_number := Py.zfill e_number 3 in
    Ok (py "e" ++ e_number)
  else Ok episode.

(** Lines 185-189: the shot of a line that ends with the MOV extension;
    [shot] is the value the variable holds before. *)
Definition mov_shot (parts : list str) (episode shot : str) : result str :=
  last_part ← Py.getitem parts (length parts - 1);
  if Py.endswith last_part (py ".mov") then
    p4 ← Py.getitem parts 4;
    shot ← Py.getitem (Py.split p4 (py "-")) 1;
    shot ← Py.getitem (Py.split shot (py ".")) 0;
    let shot := Py.zfill shot 4 in
    Ok (episode ++ py "s" ++ shot)
  else Ok shot.

(** Lines 192-195: the shot of a line that ends with the WAV extension. *)
Definition wav_shot (parts : list str) (episode shot : str) : result str :=
  last_part ← Py.getitem parts (length parts - 1);
  if Py.endswith last_part (py ".wav") then
    p1 ← Py.getitem parts 1;
    shot ← Py.getitem (Py.split p1 (py "-")) 0;
    let shot := Py.zfill shot 4 in
    Ok (episode ++ py "s" ++ shot)
  else Ok shot.

(** Lines 168-198, the body of the loop for one [line]: the tuple it
    appends to [clip_data], if any, or the exception it raises. *)
Definition process_line (line : str) : result (option ClipRecord) :=
  if Py.startswith (Py.strip line) (py "REEL") then
    piece ← Py.getitem (Py.split line (py "CLIP")) 1;
    let clip_name := Py.strip piece in
    let parts := Py.split clip_name (py "_") in
    parts0 ← Py.getitem parts 0;
    if Py.re_match_pattern parts0 then
      let season := take 3 parts0 in
      let episode := drop 3 parts0 in
      let shot := [] in
      episode ← pad_episode episode;
      shot ← mov_shot parts episode shot;
      shot ← wav_shot parts episode shot;
      Ok (Some (mkClip clip_name shot episode season))
    else Ok None
  else Ok None.

(** The [for] loop of lines 167-198 over the lines still to read:
    [clip_data] grows by one tuple per accepted line, and an exception
    leaves the loop with the tuples appended so far. *)
Fixpoint for_lines (lines : list str) (clip_data : list ClipRecord)
  : result unit * list ClipRecord :=
  match lines with
  | [] => (Ok (), clip_data)
  | line :: lines' =>
      match process_line line with
      | Ok (Some r) => for_lines lines' (clip_data ++ [r])
      | Ok None => for_lines lines' clip_data
      | Raise e => (Raise e, clip_data)
      end
  end.

(** The part of the application object the extraction touches:
    [self.clip_data] and the rows shown by [self.table_widget]. *)
Record EDLParserApp : Set := mkApp {
  clip_data : list ClipRecord;
  table_widget : list ClipRecord
}.

(** [__init__], line 52: [self.clip_data = []]; the table has no rows. *)
Definition init : EDLParserApp := mkApp [] [].

(** [load_edl_data]: one table row per tuple of [clip_data]. *)
Definition load_edl_data (self : EDLParserApp) : EDLParserApp :=
  mkApp (clip_data self) (clip_data self).

(** What [open(edl_file, 'r')] and the reading of the file give.  The
    file cannot be opened; or its bytes are the text [content]; or the
    decoder fails on some part of the file, read in parts, after the
    parts before it gave the text [before]. *)
Inductive opened : Type :=
  | Unreadable
  | Text (content : str)
  | Undecodable (before : str).

(** A file that is text, when there is one. *)
Definition of_option (file : option str) : opened :=
  match file with
  | Some content => Text content
  | None => Unreadable
  end.
#[warnings="-uniform-inheritance"]
Coercion of_option : option >-> opened.

(** The lines handed over before the decoder fails: those of [before]
    that are known to be ended.  A last line without line break, or
    ended by a CR that an LF may still follow, waits for the next part
    of the file. *)
Definition complete_lines (before : str) : list str :=
  if Py.endswith before [LF] then readlines before
  else removelast (readlines before).

(** [parse_edl_file(edl_file)]; [file] is what [open] finds at the path.
    The handler of line 200 catches the [OSError] of a file that cannot
    be opened and raises [IOError]; it catches neither [IndexError] nor
    [UnicodeDecodeError], which leave with the tuples appended so
    far. *)
Definition parse_edl_file (self : EDLParserApp) (file : opened)
  : result unit * EDLParserApp :=
  match file with
  | Unreadable => (Raise IOError, self)
  | Text content =>
      match for_lines (readlines content) (clip_data self) with
      | (Ok _, data) => (Ok (), load_edl_data (mkApp data (table_widget self)))
      | (Raise e, data) => (Raise e, mkApp data (table_widget self))
      end
  | Undecodable before =>
      match for_lines (complete_lines before) (clip_data self) with
      | (Ok _, data) =>
          (Raise UnicodeDecodeError, mkApp data (table_widget self))
      | (Raise e, data) => (Raise e, mkApp data (table_widget self))
      end
  end.

(** ** Notions the statements use *)

(** A line break occurs in [line] at its end only. *)
Definition newline_only_last (line : str) : Prop :=
  forall a b, line = a ++ LF :: b -> b = [].

(** [sep] occurs in [s]. *)
Definition occurs (sep s : str) : Prop :=
  exists a b, s = a ++ sep ++ b.

(** [s] is [a], then its leftmost [sep], then [b]. *)
Definition first_occurrence (sep a s b : str) : Prop :=
  s = a ++ sep ++ b /\
  forall a' b', s = a' ++ sep ++ b' -> length a <= length a'.

(** The record a line adds to [clip_data], if it adds one. *)
Definition line_record (line : str) : option ClipRecord :=
  match process_line line with
  | Ok (Some r) => Some r
  | _ => None
  end.

(** The extraction as the specification words it (section 4.1 with the
    policy of section 7): a line that raises is passed over and the
    lines after it are still read. *)
Definition extract_skipping (lines : list str) : list ClipRecord :=
  omap line_record lines.

(** A line on which the loop body raises no exception. *)
Definition runs (line : str) : Prop :=
  forall e, process_line line <> Raise e.

(** A line with a clip name of accepted first token and a last token
    that ends with the MOV extension, of fewer than five tokens. *)
Definition short_mov (line : str) : Prop :=
  exists piece (parts0 last_part : str),
    Py.getitem (Py.split line (py "CLIP")) 1 = Ok piece /\
    Py.getitem (Py.split (Py.strip piece) (py "_")) 0 = Ok parts0 /\
    Py.re_match_pattern parts0 = true /\
    last (Py.split (Py.strip piece) (py "_")) = Some last_part /\
    Py.endswith last_part (py ".mov") = true /\
    length (Py.split (Py.strip piece) (py "_")) < 5.

(** ** The file system and the [os] module *)

(** The state of the file system, as far as directories go: the
    directories there are, each given by the names that lead to it from
    the root, and the working directory of the process.  The root is
    always there.  Regular files, links and access rights are left
    out. *)
Record filesystem : Type := mkFs {
  dirs : gset (list str);
  cwd : list str
}.

(** A statement that acts on the file system: its outcome and the state
    it leaves, also when it raises. *)
Definition IO (A : Type) : Type := filesystem -> result A * filesystem.

Definition io_seq (m k : IO unit) : IO unit := fun fs =>
  match m fs with
  | (Ok _, fs') => k fs'
  | (Raise e, fs') => (Raise e, fs')
  end.

Module Os.

(** The limits of the kernel: a name holds at most [NAME_MAX] bytes, and
    a path fewer than [PATH_MAX]. *)
Definition NAME_MAX : nat := 255.
Definition PATH_MAX : nat := 4096.

(** The number of bytes of [os.fsencode(p)]: in UTF-8 a character below
    128 takes one byte, the others below 256 take two. *)
Fixpoint fs_bytes (p : str) : nat :=
  match p with
  | [] => 0
  | c :: p' => (if nat_of_ascii c <? 128 then 1 else 2) + fs_bytes p'
  end.

Definition is_dir (fs : filesystem) (loc : list str) : bool :=
  bool_decide (loc = [] \/ loc ∈ dirs fs).

(** The names of a path: the pieces between separators, the empty ones
    dropped. *)
Definition components (p : str) : list str :=
  filter (fun name => name <> []) (Py.split p [SEP]).

(** Where the lookup of a path starts. *)
Definition start (fs : filesystem) (p : str) : list str :=
  if Py.startswith p [SEP] then [] else cwd fs.

(** The lookup of [names] from the directory [loc]: a dot stays, two
    dots go up (the root is its own parent), a name goes down into a
    directory that is there.  A name too long is refused (ENAMETOOLONG)
    and a name that is not there is not found (ENOENT). *)
Fixpoint walk (fs : filesystem) (loc : list str) (names : list str)
  : result (list str) :=
  match names with
  | [] => Ok loc
  | name :: names' =>
      if bool_decide (name = py ".") then walk fs loc names'
      else if bool_decide (name = py "..") then walk fs (removelast loc) names'
      else if NAME_MAX <? fs_bytes name then Raise OSError
      else if is_dir fs (loc ++ [name]) then walk fs (loc ++ [name]) names'
      else Raise FileNotFoundError
  end.

(** [os.stat(p)], for the directory it finds: Python refuses a path
    that holds NUL, the kernel a path too long or empty. *)
Definition stat (fs : filesystem) (p : str) : result (list str) :=
  if bool_decide (NUL ∈ p) then Raise ValueError
  else if PATH_MAX <=? fs_bytes p then Raise OSError
  else
    match p with
    | [] => Raise FileNotFoundError
    | _ => walk fs (start fs p) (components p)
    end.

(** [os.path.exists(p)]: whether [os.stat(p)] raises nothing. *)
Definition path_exists (fs : filesystem) (p : str) : bool :=
  match stat fs p with
  | Ok _ => true
  | Raise _ => false
  end.

(** [os.mkdir(p)]: the directory above must be there and the last name
    must be new and not too long. *)
Definition mkdir (p : str) : IO unit := fun fs =>
  if bool_decide (NUL ∈ p) then (Raise ValueError, fs)
  else if PATH_MAX <=? fs_bytes p then (Raise OSError, fs)
  else
    match p with
    | [] => (Raise FileNotFoundError, fs)
    | _ =>
        match rev (components p) with
        | [] => (Raise FileExistsError, fs)
        | name :: above =>
            match walk fs (start fs p) (rev above) with
            | Raise e => (Raise e, fs)
            | Ok loc =>
                if bool_decide (name = py "." \/ name = py "..")
                then (Raise FileExistsError, fs)
                else if NAME_MAX <? fs_bytes name then (Raise OSError, fs)
                else if is_dir fs (loc ++ [name])
                then (Raise FileExistsError, fs)
                else (Ok (), mkFs ({[loc ++ [name]]} ∪ dirs fs) (cwd fs))
            end
        end
    end.

(** [os.getcwd()]: the path of the working directory, which must still
    be there. *)
Definition getcwd (fs : filesystem) : result str :=
  if is_dir fs (cwd fs) then
    Ok (match cwd fs with
        | [] => [SEP]
        | names => flat_map (fun name => SEP :: name) names
        end)
  else Raise FileNotFoundError.

(** [os.path.join(a, b)] *)
Definition path_join (a b : str) : str :=
  if Py.startswith b [SEP] then b
  else
    match a with
    | [] => a ++ b
    | _ => if Py.endswith a [SEP] then a ++ b else a ++ [SEP] ++ b
    end.

Definition is_sep (c : ascii) : bool := Ascii.eqb c SEP.

Fixpoint take_while (f : ascii -> bool) (s : str) : str :=
  match s with
  | c :: s' => if f c then c :: take_while f s' else []
  | [] => []
  end.

Fixpoint drop_while (f : ascii -> bool) (s : str) : str :=
  match s with
  | c :: s' => if f c then drop_while f s' else s
  | [] => []
  end.

(** [head.rstrip(sep)], unless [head] is empty or made of separators. *)
Definition trim_head (head : str) : str :=
  match head with
  | [] => head
  | _ => if forallb is_sep head then head
         else rev (drop_while is_sep (rev head))
  end.

(** [os.path.split(p)]: the text after the last separator, and the text
    up to it, trimmed. *)
Definition path_split (p : str) : str * str :=
  let tail := rev (take_while (fun c => negb (is_sep c)) (rev p)) in
  let head := rev (drop_while (fun c => negb (is_sep c)) (rev p)) in
  (trim_head head, tail).

(** The first lines of [os.makedirs]: [name] is split, and its head is
    split again when the tail is empty. *)
Definition split_name (name : str) : str * str :=
  let '(head, tail) := path_split name in
  match tail with
  | [] => path_split head
  | _ => (head, tail)
  end.

(** [os.makedirs(name)] with the default [exist_ok=False]; [depth] bounds
    the nesting of the calls. *)
Fixpoint makedirs_at (depth : nat) (name : str) : IO unit := fun fs =>
  match depth with
  | O => (Raise RecursionError, fs)
  | S depth' =>
      let '(head, tail) := split_name name in
      match head, tail with
      | _ :: _, _ :: _ =>
          if path_exists fs head then mkdir name fs
          else
            match makedirs_at depth' head fs with
            | (Ok _, fs') | (Raise FileExistsError, fs') =>
                if bool_decide (tail = py ".") then (Ok (), fs')
                else mkdir name fs'
            | (Raise e, fs') => (Raise e, fs')
            end
      | _, _ => mkdir name fs
      end
  end.

Definition makedirs (name : str) : IO unit :=
  makedirs_at (S (length name)) name.

End Os.

(** ** The materializer: [EDLParserApp.generate_folders] *)

(** Lines 240-241, 245-246 and 250-251: the directory is made unless the
    path exists. *)
Definition make_unless_exists (directory : str) : IO unit := fun fs =>
  if negb (Os.path_exists fs directory) then Os.makedirs directory fs
  else (Ok (), fs).

(** Lines 236-251, the body of the loop for one tuple. *)
Definition folders_of (base_directory : str) (file_info : ClipRecord)
  : IO unit :=
  let season_folder := season file_info in
  let episode_folder := episode file_info in
  let shot_folder := shot file_info in
  let season_directory := Os.path_join base_directory season_folder in
  let episode_directory := Os.path_join season_directory episode_folder in
  let shot_directory := Os.path_join episode_directory shot_folder in
  io_seq (make_unless_exists season_directory)
    (io_seq (make_unless_exists episode_directory)
       (make_unless_exists shot_directory)).

(** The [for] loop of lines 235-251. *)
Fixpoint for_records (base_directory : str) (records : list ClipRecord)
  : IO unit :=
  match records with
  | [] => fun fs => (Ok (), fs)
  | file_info :: records' =>
      io_seq (folders_of base_directory file_info)
             (for_records base_directory records')
  end.

(** [generate_folders()]: the tree under the working directory. *)
Definition generate_folders (self : EDLParserApp) : IO unit := fun fs =>
  match Os.getcwd fs with
  | Ok base_directory => for_records base_directory (clip_data self) fs
  | Raise e => (Raise e, fs)
  end.

(** The paths line 239, 244 and 249 join for one tuple. *)
Definition season_directory (base_directory : str) (r : ClipRecord) : str :=
  Os.path_join base_directory (season r).

Definition episode_directory (base_directory : str) (r : ClipRecord) : str :=
  Os.path_join (season_directory base_directory r) (episode r).

Definition shot_directory (base_directory : str) (r : ClipRecord) : str :=
  Os.path_join (episode_directory base_directory r) (shot r).

(** The three paths of a tuple are within the length the kernel takes. *)
Definition paths_within (base_directory : str) (r : ClipRecord) : Prop :=
  Os.fs_bytes (season_directory base_directory r) < Os.PATH_MAX
  /\ Os.fs_bytes (episode_directory base_directory r) < Os.PATH_MAX
  /\ Os.fs_bytes (shot_directory base_directory r) < Os.PATH_MAX.

(** A name that is one step down a path: not empty, without separator
    or NUL, and neither the dot nor the two dots. *)
Definition plain_name (name : str) : Prop :=
  name <> [] /\ (SEP ∉ name) /\ (NUL ∉ name)
  /\ name <> py "." /\ name <> py "..".

(** The characters of a season and of an episode. *)
Definition name_char (c : ascii) : bool :=
  Py.isdigit c || Ascii.eqb c "s" || Ascii.eqb c "e" || Ascii.eqb c LF.

(** One state holds the directories of another, from the same working
    directory. *)
Definition extends (fs' fs : filesystem) : Prop :=
  dirs fs ⊆ dirs fs' /\ cwd fs' = cwd fs.

(** ** The window: [open_file] and the table of [load_edl_data] *)

(** The table widget as [load_edl_data] acts on it: the numbers of rows
    and of columns, and the items set, by row and column. *)
Record Table : Type := mkTable {
  row_count : nat;
  column_count : nat;
  items : gmap (nat * nat) str
}.

(** [create_ui], lines 94-96: a table of four columns, Clip, Shot,
    Episode and Season, without rows. *)
Definition new_table : Table := mkTable 0 4 ∅.

(** [setRowCount(n)]: the rows from [n] on go, with their items. *)
Definition setRowCount (n : nat) (t : Table) : Table :=
  mkTable n (column_count t)
          (filter (fun kv : nat * nat * str => kv.1.1 < n) (items t)).

(** [setItem(row, col, item)]: nothing is set outside the table. *)
Definition setItem (row col : nat) (item : str) (t : Table) : Table :=
  if (row <? row_count t) && (col <? column_count t)
  then mkTable (row_count t) (column_count t) (<[(row, col) := item]> (items t))
  else t.

(** The tuple of line 198 as the sequence line 218 goes through. *)
Definition fields (data : ClipRecord) : list str :=
  [clip_name data; shot data; episode data; season data].

(** Lines 218-219: [for col, item in enumerate(data)], from [col] on. *)
Fixpoint set_columns (row col : nat) (data : list str) (t : Table) : Table :=
  match data with
  | [] => t
  | item :: data' => set_columns row (S col) data' (setItem row col item t)
  end.

(** Lines 216-219: [for row, data in enumerate(self.clip_data)], from
    [row] on. *)
Fixpoint set_rows (row : nat) (clip_data : list ClipRecord) (t : Table)
  : Table :=
  match clip_data with
  | [] => t
  | data :: clip_data' =>
      set_rows (S row) clip_data' (set_columns row 0 (fields data) t)
  end.

(** [load_edl_data], lines 213-219, on the items of the table. *)
Definition load_edl_table (clip_data : list ClipRecord) (t : Table) : Table :=
  set_rows 0 clip_data (setRowCount (length clip_data) t).

(** The items of a table lie within its rows and columns. *)
Definition table_ok (t : Table) : Prop :=
  forall row col item,
    items t !! (row, col) = Some item ->
    row < row_count t /\ col < column_count t.

(** The window: the application object and the text of the address bar
    [self.text_edit]. *)
Record Window : Type := mkWindow {
  self_app : EDLParserApp;
  text_edit : str
}.

(** [open_file], lines 134-144.  [filename] is the name the dialog
    returns, empty when it is dismissed, and [files] gives what opening
    and reading the file of a name gives.  The handler of line 143
    raises again the exception it catches. *)
Definition open_file (files : str -> opened) (filename : str)
  (w : Window) : result unit * Window :=
  if Py.endswith filename (py ".edl") then
    match parse_edl_file (self_app w) (files filename) with
    | (Raise FileNotFoundError, a) =>
        (Raise FileNotFoundError, mkWindow a filename)
    | (outcome, a) => (outcome, mkWindow a filename)
    end
  else (Ok (), w).

(** A text without line break or carriage return. *)
Definition one_line (l : str) : Prop := (LF ∉ l) /\ (CR ∉ l).

(** ** Sample files and records *)

Definition edl_wav : str := py "REEL 001 AX CLIP s02e12_0033-x.wav" ++ [LF].

Definition edl_mov : str :=
  py "REEL 001 AX CLIP s01e005_show_ep_desc_unused-0007.mov" ++ [LF].

(** A file of three lines: the second has the prefix and no marker. *)
Definition edl_no_marker : str :=
  py "REEL 001 AX CLIP s02e12_0033-x.wav" ++ [LF]
  ++ py "REEL 002 AX" ++ [LF]
  ++ py "REEL 003 AX CLIP s01e005_show_ep_desc_unused-0007.mov" ++ [LF].

Definition clip_wav : ClipRecord :=
  mkClip (py "s02e12_0033-x.wav") (py "e012s0033") (py "e012") (py "s02").

Definition clip_mov : ClipRecord :=
  mkClip (py "s01e005_show_ep_desc_unused-0007.mov")
         (py "e005s0007") (py "e005") (py "s01").

(** The record of a line whose numbers are short: the episode [05] and
    the shot [7]. *)
Definition clip_mov_short : ClipRecord :=
  mkClip (py "s01e05_show_ep_desc_unused-7.mov")
         (py "e005s0007") (py "e005") (py "s01").

(** A file system with the working directory [/home/edl]. *)
Definition fs_home : filesystem :=
  mkFs {[ [py "home"]; [py "home"; py "edl"] ]} [py "home"; py "edl"].

(** A record without shot, of the line
    [REEL 001 CLIP s01e05_x CLIP y]. *)
Definition clip_noshot : ClipRecord :=
  mkClip (py "s01e05_x") [] (py "e005") (py "s01").

(** A file of two lines: the shot of the first ends with two dots. *)
Definition edl_dots : str :=
  py "REEL 001 AX CLIP s02e12_a/..-x.wav" ++ [LF]
  ++ py "REEL 002 AX CLIP s01e005_show_ep_desc_unused-0007.mov" ++ [LF].

Definition clip_dots : ClipRecord :=
  mkClip (py "s02e12_a/..-x.wav") (py "e012sa/..") (py "e012") (py "s02").

(** A record whose shot ends with a dot after more separators than a
    path can hold, the line it comes from, and the state a run over it
    leaves from [fs_home]. *)
Definition clip_long : ClipRecord :=
  mkClip (py "s02e12_x" ++ replicate 4096 SEP ++ py ".-a.wav")
         (py "e012sx" ++ replicate 4096 SEP ++ py ".")
         (py "e012") (py "s02").

Definition line_long : str :=
  py "REEL 1 CLIP s02e12_x" ++ replicate 4096 SEP ++ py ".-a.wav".

Definition fs_long : filesystem :=
  mkFs ({[ [py "home"; py "edl"; py "s02"; py "e012"; py "e012sx"];
           [py "home"; py "edl"; py "s02"; py "e012"];
           [py "home"; py "edl"; py "s02"] ]} ∪ dirs fs_home)
       (cwd fs_home).

(** The state a first run over [clip_dots] and [clip_mov] leaves from
    [fs_home], and the state a second run leaves from there. *)
Definition fs_dots : filesystem :=
  mkFs ({[ [py "home"; py "edl"; py "s02"; py "e012"; py "e012sa"];
           [py "home"; py "edl"; py "s02"; py "e012"];
           [py "home"; py "edl"; py "s02"] ]} ∪ dirs fs_home)
       (cwd fs_home).

Definition fs_dots_again : filesystem :=
  mkFs ({[ [py "home"; py "edl"; py "s01"; py "e005"; py "e005s0007"];
           [py "home"; py "edl"; py "s01"; py "e005"];
           [py "home"; py "edl"; py "s01"] ]} ∪ dirs fs_dots)
       (cwd fs_home).

(** * Properties of the string built-ins *)

Section StringFacts.

Implicit Types (s p sep cur a b : str) (c : ascii).

Lemma ascii_eqb_true c c' : Ascii.eqb c c' = true <-> c = c'.
Proof. apply Ascii.eqb_eq. Qed.

Lemma startswith_app s p : Py.startswith (p ++ s) p = true.
Proof.
  induction p as [|x p IH]; simpl; [done|].
  rewrite Ascii.eqb_refl. exact IH.
Qed.

Lemma startswith_inv s p :
  Py.startswith s p = true -> exists r, s = p ++ r.
Proof.
  revert s; induction p as [|x p IH]; intros s H; simpl in *.
  - by exists s.
  - destruct s as [|c s]; [done|].
    apply andb_true_iff in H as [Hc Hs].
    apply ascii_eqb_true in Hc as ->.
    destruct (IH _ Hs) as [r ->]. by exists r.
Qed.

Lemma split_from_skip sep cur x s :
  Py.split_from sep (length x) cur (x ++ s) = Py.split_from sep 0 cur s.
Proof.
  induction x as [|c x IH]; simpl; [|done].
  destruct s; done.
Qed.

Lemma split_from_cases sep cur s :
  sep <> [] ->
  (~ occurs sep s /\ Py.split_from sep 0 cur s = [rev cur ++ s])
  \/ (exists a b, first_occurrence sep a s b /\
        Py.split_from sep 0 cur s
        = (rev cur ++ a) :: Py.split_from sep 0 [] b).
Proof.
  intros Hsep. revert cur.
  induction s as [|c s IH]; intros cur.
  - left. split; [|by rewrite app_nil_r].
    intros (a & b & H). destruct a, sep; done.
  - simpl. destruct (Py.startswith (c :: s) sep) eqn:Hst.
    + right. apply startswith_inv in Hst as [b Hb].
      exists [], b. split; [split; [done|simpl; lia]|].
      rewrite app_nil_r. f_equal.
      destruct sep as [|c0 sep']; [done|].
      simpl in Hb. injection Hb as -> ->.
      replace (length (_ :: sep') - 1) with (length sep') by (simpl; lia).
      apply split_from_skip.
    + assert (Hhead : forall b', c :: s <> sep ++ b').
      { intros b' Hb'. rewrite Hb', startswith_app in Hst. done. }
      destruct (IH (c :: cur)) as [[Hno Heq]|(a & b & [Hab Hmin] & Heq)].
      * left. split.
        -- intros (a & b & H). destruct a as [|c' a].
           ++ by apply (Hhead b).
           ++ injection H as -> H. apply Hno. by exists a, b.
        -- rewrite Heq. simpl. by rewrite <- app_assoc.
      * right. exists (c :: a), b. split; [split|].
        -- by rewrite Hab.
        -- intros a' b' H. destruct a' as [|c' a'].
           ++ by destruct (Hhead b').
           ++ injection H as -> H. apply Hmin in H. simpl. lia.
        -- rewrite Heq. simpl. by rewrite <- app_assoc.
Qed.

(** The first piece of a split and the rest of the pieces. *)
Lemma split_cases s sep :
  sep <> [] ->
  (~ occurs sep s /\ Py.split s sep = [s])
  \/ (exists a b, first_occurrence sep a s b /\
        Py.split s sep = a :: Py.split b sep).
Proof. intros Hsep. apply (split_from_cases sep [] s Hsep). Qed.

Lemma first_occurrence_unique sep a a' s b b' :
  first_occurrence sep a s b -> first_occurrence sep a' s b' ->
  a = a' /\ b = b'.
Proof.
  intros [H1 M1] [H2 M2].
  assert (length a = length a') as Hlen.
  { apply M1 in H2. apply M2 in H1. lia. }
  rewrite H1 in H2.
  apply app_inj_1 in H2 as [-> H2]; [|done].
  by apply app_inv_head in H2 as ->.
Qed.

(** A split always has a first piece. *)
Lemma split_head s sep :
  sep <> [] -> exists x l, Py.split s sep = x :: l.
Proof.
  intros Hsep.
  destruct (split_cases s sep Hsep) as [[_ ->]|(a & b & _ & ->)]; eauto.
Qed.

(** *** Stripping *)

Lemma lstrip_suffix s : exists a, s = a ++ Py.lstrip s.
Proof.
  induction s as [|c s [a IH]]; simpl; [by exists []|].
  destruct (Py.isspace c).
  - exists (c :: a). simpl. by rewrite <- IH.
  - by exists [].
Qed.

Lemma lstrip_first s c s' :
  Py.lstrip s = c :: s' -> Py.isspace c = false.
Proof.
  induction s as [|x s IH]; simpl; [done|].
  destruct (Py.isspace x) eqn:Hx; [done|].
  by intros [= <- _].
Qed.

Lemma strip_infix s : exists a b, s = a ++ Py.strip s ++ b.
Proof.
  unfold Py.strip, Py.rstrip.
  destruct (lstrip_suffix (rev s)) as [b Hb].
  destruct (lstrip_suffix (rev (Py.lstrip (rev s)))) as [a Ha].
  exists a, (rev b).
  rewrite app_assoc, <- Ha, <- rev_app_distr, <- Hb.
  by rewrite rev_involutive.
Qed.

(** A stripped string does not end with white space. *)
Lemma strip_last s x c :
  Py.strip s = x ++ [c] -> Py.isspace c = false.
Proof.
  unfold Py.strip, Py.rstrip. intros H.
  destruct (lstrip_suffix (rev (Py.lstrip (rev s)))) as [a Ha].
  rewrite H in Ha.
  apply (f_equal (@rev ascii)) in Ha.
  rewrite rev_involutive, app_assoc, rev_app_distr in Ha. simpl in Ha.
  by apply lstrip_first in Ha.
Qed.

(** *** Characters *)

Lemma isdigit_neq c x :
  Py.isdigit c = true -> Py.isdigit x = false -> Ascii.eqb c x = false.
Proof.
  intros Hc Hx. destruct (Ascii.eqb c x) eqn:E; [|done].
  apply ascii_eqb_true in E as ->. congruence.
Qed.

(** No file name ends with both extensions. *)
Lemma endswith_mov_wav s :
  Py.endswith s (py ".mov") = true -> Py.endswith s (py ".wav") = false.
Proof.
  unfold Py.endswith. simpl.
  destruct (rev s) as [|c0 [|c1 l]]; simpl; intros H; [done| |].
  - by rewrite andb_false_r in H.
  - apply andb_true_iff in H as [_ H]. apply andb_true_iff in H as [H _].
    apply ascii_eqb_true in H as ->. simpl. apply andb_false_r.
Qed.

End StringFacts.

(** * Properties of the extractor *)

Section ExtractorFacts.

Implicit Types (line piece clip : str) (parts : list str).
Implicit Types (r : ClipRecord).

(** The shape of a first token the pattern accepts. *)
Lemma re_match_shape s :
  Py.re_match_pattern s = true ->
  exists d1 d2 digits tail,
    s = "s"%char :: d1 :: d2 :: "e"%char :: digits ++ tail /\
    Py.isdigit d1 = true /\ Py.isdigit d2 = true /\
    Forall (fun d => Py.isdigit d = true) digits /\
    (length digits = 2 \/ length digits = 3) /\
    (tail = [] \/ tail = [LF]).
Proof.
  destruct s as [|c0 [|d1 [|d2 [|c3 [|d4 [|d5 rest]]]]]]; try done.
  unfold Py.re_match_pattern. rewrite !andb_true_iff.
  intros ((((((H0 & H1) & H2) & H3) & H4) & H5) & Hrest).
  apply ascii_eqb_true in H0 as ->. apply ascii_eqb_true in H3 as ->.
  exists d1, d2.
  destruct rest as [|d6 rest].
  { exists [d4; d5], []. repeat split; auto. }
  apply orb_true_iff in Hrest as [Hrest|Hrest].
  - apply andb_true_iff in Hrest as [H6 Hend].
    destruct rest as [|c [|? ?]]; try done.
    + exists [d4; d5; d6], []. repeat split; auto.
    + apply ascii_eqb_true in Hend as ->.
      exists [d4; d5; d6], [LF]. repeat split; auto.
  - destruct rest; [|done]. apply ascii_eqb_true in Hrest as ->.
    exists [d4; d5], [LF]. repeat split; auto.
Qed.

(** Lines 179-182 on what follows the season of an accepted token. *)
Lemma pad_episode_digits digits tail :
  Forall (fun d => Py.isdigit d = true) digits ->
  length digits = 2 \/ length digits = 3 ->
  tail = [] \/ tail = [LF] ->
  pad_episode ("e"%char :: digits ++ tail)
  = Ok (match tail with
        | [] => py "e" ++ Py.zfill digits 3
        | _ => "e"%char :: digits ++ tail
        end).
Proof.
  intros Hd Hlen Htail.
  destruct digits as [|d4 [|d5 [|d6 [|? ?]]]]; simpl in Hlen; try lia.
  - apply Forall_cons in Hd as [H4 Hd]. apply Forall_cons in Hd as [H5 _].
    destruct Htail as [-> | ->]; [|done].
    unfold pad_episode, Py.split; simpl.
    rewrite (isdigit_neq d4 "e") by done.
    rewrite (isdigit_neq d5 "e") by done. done.
  - destruct Htail as [-> | ->]; done.
Qed.

(** What an accepted line went through. *)
Lemma process_line_inv line r :
  process_line line = Ok (Some r) ->
  exists piece (parts0 : str) shot0,
    Py.startswith (Py.strip line) (py "REEL") = true /\
    Py.getitem (Py.split line (py "CLIP")) 1 = Ok piece /\
    clip_name r = Py.strip piece /\
    Py.getitem (Py.split (clip_name r) (py "_")) 0 = Ok parts0 /\
    Py.re_match_pattern parts0 = true /\
    season r = take 3 parts0 /\
    pad_episode (drop 3 parts0) = Ok (episode r) /\
    mov_shot (Py.split (clip_name r) (py "_")) (episode r) [] = Ok shot0 /\
    wav_shot (Py.split (clip_name r) (py "_")) (episode r) shot0
    = Ok (shot r).
Proof.
  unfold process_line.
  destruct (Py.startswith _ _); [|done].
  destruct (Py.getitem (Py.split line _) 1) as [piece|] eqn:Hp; [|done].
  simpl.
  destruct (Py.getitem (Py.split (Py.strip piece) _) 0)
    as [parts0|] eqn:H0; [|done].
  simpl.
  destruct (Py.re_match_pattern parts0) eqn:Hre; [|done].
  destruct (pad_episode _) as [ep|] eqn:Hep; [|done]. simpl.
  destruct (mov_shot _ _ _) as [shot0|] eqn:Hmov; [|done]. simpl.
  destruct (wav_shot _ _ _) as [sh|] eqn:Hwav; [|done]. simpl.
  intros [= <-]. simpl. by exists piece, parts0, shot0.
Qed.

(** What a line that holds a clip name of accepted first token does. *)
Lemma process_line_run line piece (parts0 : str) :
  Py.startswith (Py.strip line) (py "REEL") = true ->
  Py.getitem (Py.split line (py "CLIP")) 1 = Ok piece ->
  Py.getitem (Py.split (Py.strip piece) (py "_")) 0 = Ok parts0 ->
  Py.re_match_pattern parts0 = true ->
  process_line line =
    (episode ← pad_episode (drop 3 parts0);
     shot ← mov_shot (Py.split (Py.strip piece) (py "_")) episode [];
     shot ← wav_shot (Py.split (Py.strip piece) (py "_")) episode shot;
     Ok (Some (mkClip (Py.strip piece) shot episode (take 3 parts0)))).
Proof.
  intros Hreel Hp H0 Hre. unfold process_line.
  rewrite Hreel, Hp. cbn [mbind result_bind].
  rewrite H0. cbn [mbind result_bind]. by rewrite Hre.
Qed.

End ExtractorFacts.

Section LoopFacts.

Implicit Types (line : str) (lines before after : list str).
Implicit Types (data : list ClipRecord).

Lemma getitem_last {A} (l : list A) x :
  last l = Some x -> Py.getitem l (length l - 1) = Ok x.
Proof.
  unfold Py.getitem. rewrite last_lookup, Nat.sub_1_r. by intros ->.
Qed.

Lemma getitem_Ok {A} (l : list A) i x :
  Py.getitem l i = Ok x <-> l !! i = Some x.
Proof.
  unfold Py.getitem. destruct (l !! i); split; congruence.
Qed.

Lemma getitem_short {A} (l : list A) i :
  length l <= i -> Py.getitem l i = Raise IndexError.
Proof.
  intros H. unfold Py.getitem. by rewrite lookup_ge_None_2.
Qed.

(** The loop over lines that raise nothing. *)
Lemma for_lines_runs before lines data :
  Forall runs before ->
  for_lines (before ++ lines) data
  = for_lines lines (data ++ extract_skipping before).
Proof.
  intros H. revert data.
  induction H as [|line before Hline _ IH]; intros data; simpl.
  - by rewrite app_nil_r.
  - unfold extract_skipping; simpl. unfold line_record.
    destruct (process_line line) as [[r|]|e] eqn:Hp.
    + rewrite IH. by rewrite <- app_assoc.
    + apply IH.
    + by destruct (Hline e).
Qed.

(** The loop appends to the list it is given what it appends to an
    empty one. *)
Lemma for_lines_append lines data :
  for_lines lines data
  = ((for_lines lines []).1, data ++ (for_lines lines []).2).
Proof.
  revert data. induction lines as [|line lines IH]; intros data; simpl.
  - by rewrite app_nil_r.
  - destruct (process_line line) as [[r|]|e].
    + rewrite (IH (data ++ [r])), (IH [r]). simpl. by rewrite <- app_assoc.
    + apply IH.
    + simpl. by rewrite app_nil_r.
Qed.

(** The records of a loop are those of the lines before the first one
    that raises, in the order of the lines. *)
Lemma for_lines_prefix lines data :
  exists n,
    (for_lines lines data).2 = data ++ extract_skipping (take n lines) /\
    Forall runs (take n lines) /\
    ((for_lines lines data).1 = Ok () -> n = length lines).
Proof.
  revert data. induction lines as [|line lines IH]; intros data; simpl.
  - exists 0. simpl. by rewrite app_nil_r.
  - destruct (process_line line) as [[r|]|e] eqn:Hp.
    + destruct (IH (data ++ [r])) as (n & Hn & Hruns & Hok).
      exists (S n). simpl. unfold extract_skipping. simpl.
      unfold line_record at 1. rewrite Hp.
      split; [by rewrite Hn, <- app_assoc|].
      split; [|by intros ->%Hok].
      constructor; [|done]. intros e. by rewrite Hp.
    + destruct (IH data) as (n & Hn & Hruns & Hok).
      exists (S n). simpl. unfold extract_skipping. simpl.
      unfold line_record at 1. rewrite Hp.
      split; [done|]. split; [|by intros ->%Hok].
      constructor; [|done]. intros e. by rewrite Hp.
    + exists 0. simpl. by rewrite app_nil_r.
Qed.

(** A line with the prefix and no marker raises. *)
Lemma no_clip_raises line :
  Py.startswith (Py.strip line) (py "REEL") = true ->
  ~ occurs (py "CLIP") line ->
  process_line line = Raise IndexError.
Proof.
  intros Hreel Hno. unfold process_line. rewrite Hreel.
  destruct (split_cases line (py "CLIP")) as [[_ ->]|(a & b & [-> _] & _)];
    [done|done|].
  destruct Hno. by exists a, b.
Qed.

(** The padding of lines 179-182 never raises on an accepted token. *)
Lemma pad_episode_accepted (parts0 : str) :
  Py.re_match_pattern parts0 = true ->
  exists ep, pad_episode (drop 3 parts0) = Ok ep.
Proof.
  intros (d1 & d2 & digits & tail & -> & _ & _ & Hd & Hlen & Htail)
    %re_match_shape.
  simpl. rewrite pad_episode_digits by done. eauto.
Qed.

(** A MOV line of fewer than five tokens raises. *)
Lemma short_mov_raises line :
  Py.startswith (Py.strip line) (py "REEL") = true ->
  short_mov line ->
  process_line line = Raise IndexError.
Proof.
  intros Hreel (piece & parts0 & last_part & Hp & H0 & Hre & Hlast & Hmov & Hlen).
  rewrite (process_line_run line piece parts0) by done.
  destruct (pad_episode_accepted parts0 Hre) as [ep ->].
  cbn [mbind result_bind]. unfold mov_shot.
  rewrite (getitem_last _ _ Hlast). cbn [mbind result_bind].
  rewrite Hmov, getitem_short by lia. done.
Qed.

End LoopFacts.

(** Closes a goal on string literals by evaluation. *)
Ltac literal := vm_compute; first [reflexivity | discriminate | congruence].

(** Closes an equation whose left side evaluates to its right side. *)
Ltac evaluated :=
  lazymatch goal with |- _ = ?y => vm_cast_no_check (eq_refl y) end.

(** Closes a goal on the lengths of the paths of given tuples. *)
Ltac short_paths :=
  repeat (apply Forall_cons; split;
          [repeat split; apply Nat.ltb_lt; vm_compute; reflexivity|]);
  apply Forall_nil_2.

Section SplitFacts.

Implicit Types (s sep a b piece : str).

(** A split of one piece: the separator does not occur. *)
Lemma not_occurs_split s sep :
  sep <> [] -> length (Py.split s sep) = 1 -> ~ occurs sep s.
Proof.
  intros Hsep Hlen.
  destruct (split_cases s sep Hsep) as [[H _]|(a & b & _ & Heq)]; [done|].
  rewrite Heq in Hlen. destruct (split_head b sep Hsep) as (x & l & Hb).
  rewrite Hb in Hlen. done.
Qed.

(** The first piece of a longer split ends at the leftmost separator. *)
Lemma first_occurrence_split s sep a x l :
  sep <> [] -> Py.split s sep = a :: x :: l ->
  first_occurrence sep a s (drop (length a + length sep) s).
Proof.
  intros Hsep Heq.
  destruct (split_cases s sep Hsep) as [[_ H]|(a' & b & Hocc & H)];
    rewrite H in Heq; [done|].
  injection Heq as -> _. destruct Hocc as [Hs Hmin].
  assert (drop (length a + length sep) s = b) as ->; [|done].
  rewrite Hs at 1. rewrite app_assoc, <- length_app.
  by rewrite drop_app_length.
Qed.

(** The second piece of a split: what follows the leftmost separator,
    up to the next one. *)
Lemma split_second s sep piece :
  sep <> [] ->
  Py.getitem (Py.split s sep) 1 = Ok piece ->
  exists a b,
    first_occurrence sep a s b /\
    ((~ occurs sep b /\ piece = b)
     \/ exists b2, first_occurrence sep piece b b2).
Proof.
  intros Hsep Hget. apply getitem_Ok in Hget.
  destruct (split_cases s sep Hsep) as [[_ H]|(a & b & Hocc & H)];
    rewrite H in Hget; [done|].
  exists a, b. split; [done|]. simpl in Hget.
  destruct (split_cases b sep Hsep) as [[Hno Hb]|(b1 & b2 & Hocc' & Hb)];
    rewrite Hb in Hget; injection Hget as <-; eauto.
Qed.

Lemma split_second_infix s sep piece :
  sep <> [] ->
  Py.getitem (Py.split s sep) 1 = Ok piece ->
  exists x y, s = x ++ piece ++ y.
Proof.
  intros Hsep Hget.
  destruct (split_second s sep piece Hsep Hget)
    as (a & b & [-> _] & [[_ ->]|(b2 & [-> _])]).
  - exists (a ++ sep), []. by rewrite app_nil_r, <- app_assoc.
  - exists (a ++ sep), (sep ++ b2). by rewrite <- app_assoc.
Qed.

(** The first piece of a split: the whole string, or what precedes the
    separator. *)
Lemma split_first s sep piece :
  sep <> [] ->
  Py.getitem (Py.split s sep) 0 = Ok piece ->
  s = piece \/ exists b, s = piece ++ sep ++ b.
Proof.
  intros Hsep Hget. apply getitem_Ok in Hget.
  destruct (split_cases s sep Hsep) as [[_ H]|(a & b & [Hs _] & H)];
    rewrite H in Hget; injection Hget as <-; eauto.
Qed.

Lemma newline_only_last_infix s x y piece :
  newline_only_last s -> s = x ++ piece ++ y ->
  forall a b, piece = a ++ LF :: b -> b ++ y = [].
Proof.
  intros Hs -> a b ->. apply (Hs (x ++ a)).
  by rewrite <- !app_assoc.
Qed.

End SplitFacts.

Section FileFacts.

Implicit Types (content cur line : str).

Lemma rev_no_newline cur a b : LF ∉ cur -> rev cur <> a ++ LF :: b.
Proof.
  intros Hcur Heq. apply Hcur, list_elem_of_In, in_rev.
  rewrite Heq. apply in_elt.
Qed.

Lemma rev_newline_last cur :
  LF ∉ cur -> newline_only_last (rev (LF :: cur)).
Proof.
  intros Hcur a b. simpl.
  destruct b as [|x b _] using rev_ind; [done|].
  rewrite app_comm_cons, app_assoc.
  intros [Hrev _]%app_inj_tail. by destruct (rev_no_newline cur a b).
Qed.

Lemma readlines_from_newline n content cur line :
  length content <= n ->
  LF ∉ cur ->
  line ∈ readlines_from cur content ->
  newline_only_last line.
Proof.
  revert content cur.
  induction n as [|n IH]; intros [|c rest] cur Hn Hcur; simpl in *; try lia.
  - destruct cur as [|x cur']; [by intros ?%elem_of_nil|].
    intros ->%list_elem_of_singleton a b Hab.
    by destruct (rev_no_newline _ a b Hcur).
  - destruct cur as [|x cur']; [by intros ?%elem_of_nil|].
    intros ->%list_elem_of_singleton a b Hab.
    by destruct (rev_no_newline _ a b Hcur).
  - destruct (Ascii.eqb c LF) eqn:Hc.
    { intros [->|Hin]%elem_of_cons; [by apply (rev_newline_last cur)|].
      apply (IH rest []); [lia|by apply not_elem_of_nil|done]. }
    destruct (Ascii.eqb c CR) eqn:Hcr.
    + destruct rest as [|c' rest'].
      { intros ->%list_elem_of_singleton. by apply (rev_newline_last cur). }
      destruct (Ascii.eqb c' LF);
        (intros [->|Hin]%elem_of_cons; [by apply (rev_newline_last cur)|]).
      * apply (IH rest' []); [simpl in Hn; lia|by apply not_elem_of_nil|done].
      * apply (IH (c' :: rest') []); [lia|by apply not_elem_of_nil|done].
    + apply IH; [lia|].
      intros [Heq|?]%elem_of_cons; [|done].
      by rewrite <- Heq, Ascii.eqb_refl in Hc.
Qed.

(** A line of a file holds no line break before its end. *)
Lemma readlines_newline content line :
  line ∈ readlines content -> newline_only_last line.
Proof.
  apply (readlines_from_newline (length content)); [done|].
  apply not_elem_of_nil.
Qed.

(** In a line of a file the accepted first token of a clip name is the
    letter s, two digits, the letter e and two or three digits. *)
Lemma accepted_token_shape line r (parts0 : str) :
  newline_only_last line ->
  process_line line = Ok (Some r) ->
  Py.getitem (Py.split (clip_name r) (py "_")) 0 = Ok parts0 ->
  exists d1 d2 digits,
    parts0 = "s"%char :: d1 :: d2 :: "e"%char :: digits /\
    Py.isdigit d1 = true /\ Py.isdigit d2 = true /\
    Forall (fun d => Py.isdigit d = true) digits /\
    (length digits = 2 \/ length digits = 3) /\
    episode r = py "e" ++ Py.zfill digits 3.
Proof.
  intros Hline (piece & p0 & shot0 & _ & Hp & Hclip & H0 & Hre & _ & Hep & _)
    %process_line_inv Hparts0.
  rewrite H0 in Hparts0. injection Hparts0 as ->.
  destruct (re_match_shape _ Hre)
    as (d1 & d2 & digits & tail & -> & H1 & H2 & Hd & Hlen & Htail).
  simpl in Hep. rewrite pad_episode_digits in Hep by done.
  destruct Htail as [->| ->].
  { injection Hep as <-. exists d1, d2, digits.
    by rewrite app_nil_r. }
  exfalso.
  apply split_second_infix in Hp as (x & y & Hxy); [|literal].
  destruct (strip_infix piece) as (u & v & Huv). rewrite <- Hclip in Huv.
  apply split_first in H0 as [Hwhole|[b Hb]]; [| |literal].
  - assert (Py.isspace LF = false) as Hsp; [|done].
    apply (strip_last piece ("s"%char :: d1 :: d2 :: "e"%char :: digits)).
    by rewrite <- Hclip, Hwhole.
  - rewrite Hb in Huv. rewrite Huv in Hxy.
    specialize (Hline
      (x ++ u ++ "s"%char :: d1 :: d2 :: "e"%char :: digits)
      (py "_" ++ b ++ v ++ y)).
    simpl in Hline. discriminate Hline.
    rewrite Hxy. simpl.
    repeat first [rewrite <- app_assoc | rewrite <- app_comm_cons].
    reflexivity.
Qed.

End FileFacts.

Section ShotFacts.

Implicit Types (line piece episode shot_before last_part : str).
Implicit Types (parts : list str) (r : ClipRecord).

Lemma mov_shot_mov parts episode shot_before last_part sh :
  last parts = Some last_part ->
  Py.endswith last_part (py ".mov") = true ->
  mov_shot parts episode shot_before = Ok sh ->
  exists p4 a digits : str,
    parts !! 4 = Some p4 /\
    Py.split p4 (py "-") !! 1 = Some a /\
    Py.split a (py ".") !! 0 = Some digits /\
    sh = episode ++ py "s" ++ Py.zfill digits 4.
Proof.
  intros Hlast Hmov. unfold mov_shot.
  rewrite (getitem_last _ _ Hlast). cbn [mbind result_bind]. rewrite Hmov.
  destruct (Py.getitem parts 4) as [p4|] eqn:H4; [|done].
  cbn [mbind result_bind].
  destruct (Py.getitem (Py.split p4 _) 1) as [a|] eqn:Ha; [|done].
  cbn [mbind result_bind].
  destruct (Py.getitem (Py.split a _) 0) as [digits|] eqn:Hd; [|done].
  cbn [mbind result_bind]. intros [= <-].
  apply getitem_Ok in H4, Ha, Hd. by exists p4, a, digits.
Qed.

Lemma mov_shot_other parts episode shot_before last_part :
  last parts = Some last_part ->
  Py.endswith last_part (py ".mov") = false ->
  mov_shot parts episode shot_before = Ok shot_before.
Proof.
  intros Hlast Hmov. unfold mov_shot.
  rewrite (getitem_last _ _ Hlast). cbn [mbind result_bind].
  by rewrite Hmov.
Qed.

Lemma wav_shot_wav parts episode shot_before last_part sh :
  last parts = Some last_part ->
  Py.endswith last_part (py ".wav") = true ->
  wav_shot parts episode shot_before = Ok sh ->
  exists p1 a : str,
    parts !! 1 = Some p1 /\
    Py.split p1 (py "-") !! 0 = Some a /\
    sh = episode ++ py "s" ++ Py.zfill a 4.
Proof.
  intros Hlast Hwav. unfold wav_shot.
  rewrite (getitem_last _ _ Hlast). cbn [mbind result_bind]. rewrite Hwav.
  destruct (Py.getitem parts 1) as [p1|] eqn:H1; [|done].
  cbn [mbind result_bind].
  destruct (Py.getitem (Py.split p1 _) 0) as [a|] eqn:Ha; [|done].
  cbn [mbind result_bind]. intros [= <-].
  apply getitem_Ok in H1, Ha. by exists p1, a.
Qed.

Lemma wav_shot_other parts episode shot_before last_part :
  last parts = Some last_part ->
  Py.endswith last_part (py ".wav") = false ->
  wav_shot parts episode shot_before = Ok shot_before.
Proof.
  intros Hlast Hwav. unfold wav_shot.
  rewrite (getitem_last _ _ Hlast). cbn [mbind result_bind].
  by rewrite Hwav.
Qed.

(** An accepted first token carries no WAV extension. *)
Lemma accepted_token_not_wav (parts0 : str) :
  Py.re_match_pattern parts0 = true ->
  Py.endswith parts0 (py ".wav") = false.
Proof.
  intros (d1 & d2 & digits & tail & -> & _ & _ & Hd & Hlen & Htail)
    %re_match_shape.
  destruct digits as [|d4 [|d5 [|d6 [|? ?]]]]; simpl in Hlen; try lia;
    destruct Htail as [-> | ->]; try done; unfold Py.endswith; simpl.
  - apply Forall_cons in Hd as [_ [H5 _]%Forall_cons].
    by rewrite (isdigit_neq d5 "v").
  - apply Forall_cons in Hd as [_ [_ [H6 _]%Forall_cons]%Forall_cons].
    by rewrite (isdigit_neq d6 "v").
Qed.

(** A WAV line with an accepted first token yields a record. *)
Lemma wav_line_record line piece (parts0 : str) last_part :
  Py.startswith (Py.strip line) (py "REEL") = true ->
  Py.getitem (Py.split line (py "CLIP")) 1 = Ok piece ->
  Py.split (Py.strip piece) (py "_") !! 0 = Some parts0 ->
  Py.re_match_pattern parts0 = true ->
  last (Py.split (Py.strip piece) (py "_")) = Some last_part ->
  Py.endswith last_part (py ".wav") = true ->
  exists (ep p1 a : str),
    Py.split (Py.strip piece) (py "_") !! 1 = Some p1 /\
    Py.split p1 (py "-") !! 0 = Some a /\
    process_line line
    = Ok (Some (mkClip (Py.strip piece) (ep ++ py "s" ++ Py.zfill a 4)
                       ep (take 3 parts0))).
Proof.
  intros Hreel Hp H0 Hre Hlast Hext.
  rewrite (process_line_run line piece parts0);
    [|done|done|by apply getitem_Ok|done].
  destruct (pad_episode_accepted parts0 Hre) as [ep ->].
  cbn [mbind result_bind].
  assert (Py.endswith last_part (py ".mov") = false) as Hmov.
  { destruct (Py.endswith last_part (py ".mov")) eqn:E; [|done].
    apply endswith_mov_wav in E. congruence. }
  rewrite (mov_shot_other _ _ _ _ Hlast Hmov). cbn [mbind result_bind].
  unfold wav_shot. rewrite (getitem_last _ _ Hlast).
  cbn [mbind result_bind]. rewrite Hext.
  destruct (Py.split (Py.strip piece) (py "_")) as [|x [|p1 rest]] eqn:Hparts;
    [done| |].
  { simpl in H0, Hlast. injection H0 as ->. injection Hlast as ->.
    apply accepted_token_not_wav in Hre. congruence. }
  destruct (split_head p1 (py "-") ltac:(literal)) as (a & l & Ha).
  exists ep, p1, a. repeat split; [by rewrite Ha|].
  unfold Py.getitem. cbn [lookup list_lookup mbind result_bind].
  rewrite Ha. reflexivity.
Qed.

(** A piece of a split on one character does not hold the character. *)
Lemma split_from_piece c s cur x :
  c ∉ cur -> x ∈ Py.split_from [c] 0 cur s -> c ∉ x.
Proof.
  revert cur. induction s as [|y s IH]; intros cur Hcur; simpl.
  - intros ->%list_elem_of_singleton.
    by intros Hin%list_elem_of_In%in_rev%list_elem_of_In.
  - rewrite andb_true_r. destruct (Ascii.eqb y c) eqn:E.
    + intros [->|Hin]%elem_of_cons.
      * by intros Hin%list_elem_of_In%in_rev%list_elem_of_In.
      * apply (IH []); [apply not_elem_of_nil|done].
    + apply IH. apply not_elem_of_cons. split; [|done].
      intros ->. by rewrite Ascii.eqb_refl in E.
Qed.

Lemma split_piece c s i x : Py.split s [c] !! i = Some x -> c ∉ x.
Proof.
  intros Hx%list_elem_of_lookup_2.
  by apply (split_from_piece c s [] x); [apply not_elem_of_nil|].
Qed.

(** The first piece of a split starts the text. *)
Lemma split_first_prefix s sep x :
  sep <> [] -> Py.split s sep !! 0 = Some x -> exists rest, s = x ++ rest.
Proof.
  intros Hsep.
  destruct (split_cases s sep Hsep) as [[_ ->]|(a & b & [-> _] & ->)];
    intros [= <-]; [exists []; by rewrite app_nil_r|by eexists].
Qed.

(** [zfill] on a text without sign: zeros on the left, up to the
    width. *)
Lemma zfill_unsigned s width :
  (forall rest, s <> "+"%char :: rest) ->
  (forall rest, s <> "-"%char :: rest) ->
  Py.zfill s width = replicate (width - length s) "0"%char ++ s.
Proof.
  intros Hplus Hminus. unfold Py.zfill.
  destruct (Nat.leb_spec width (length s)) as [Hle|Hlt].
  { by replace (width - length s) with 0 by lia. }
  destruct s as [|c s]; [by rewrite app_nil_r|].
  destruct (Ascii.eqb c "+"%char) eqn:E1.
  { apply ascii_eqb_true in E1 as ->. by destruct (Hplus s). }
  destruct (Ascii.eqb c "-"%char) eqn:E2.
  { apply ascii_eqb_true in E2 as ->. by destruct (Hminus s). }
  done.
Qed.

(** The same for a text that holds no hyphen. *)
Lemma zfill_no_hyphen s width :
  "-"%char ∉ s -> (forall rest, s <> "+"%char :: rest) ->
  Py.zfill s width = replicate (width - length s) "0"%char ++ s.
Proof.
  intros Hno Hplus. apply zfill_unsigned; [done|].
  intros rest ->. apply Hno. left.
Qed.

End ShotFacts.

Section NameFacts.

Implicit Types (name digits tail : str) (c : ascii) (r : ClipRecord).

Lemma name_chars_plain c name :
  Forall (fun x => name_char x = true) name ->
  name_char c = true -> Ascii.eqb c "." = false ->
  plain_name (c :: name).
Proof.
  intros Hall Hc Hdot.
  assert (forall x, name_char x = false -> x ∉ c :: name) as Hnot.
  { intros x Hx [->|Hin]%elem_of_cons; [congruence|].
    rewrite Forall_forall in Hall. apply Hall in Hin. congruence. }
  repeat split; [done|by apply Hnot|by apply Hnot|..];
    intros [= -> _]; done.
Qed.

Lemma isdigit_name_char c : Py.isdigit c = true -> name_char c = true.
Proof. intros H. unfold name_char. by rewrite H. Qed.

Lemma zfill_digits digits :
  Forall (fun d => Py.isdigit d = true) digits ->
  length digits = 2 \/ length digits = 3 ->
  Py.zfill digits 3 = replicate (3 - length digits) "0"%char ++ digits.
Proof.
  intros Hd Hlen.
  destruct digits as [|d4 [|d5 [|d6 [|? ?]]]]; simpl in Hlen; try lia;
    [|done].
  apply Forall_cons in Hd as [H4 _]. unfold Py.zfill; simpl.
  by rewrite (isdigit_neq d4 "+"), (isdigit_neq d4 "-").
Qed.

(** The season and the episode of a record are plain names. *)
Lemma record_names_plain line r :
  process_line line = Ok (Some r) ->
  plain_name (season r) /\ plain_name (episode r).
Proof.
  intros (piece & parts0 & shot0 & _ & _ & _ & _ & Hre & -> & Hep & _)
    %process_line_inv.
  destruct (re_match_shape _ Hre)
    as (d1 & d2 & digits & tail & -> & H1 & H2 & Hd & Hlen & Htail).
  simpl in Hep. rewrite pad_episode_digits in Hep by done.
  assert (Forall (fun x => name_char x = true) digits) as Hdn.
  { eapply Forall_impl; [done|]. apply isdigit_name_char. }
  split.
  - simpl. apply name_chars_plain; [|done..].
    repeat constructor; by apply isdigit_name_char.
  - destruct Htail as [-> | ->]; injection Hep as <-.
    + rewrite zfill_digits by done. simpl.
      apply name_chars_plain; [|done..].
      apply Forall_app. split; [|done].
      by apply Forall_replicate.
    + apply name_chars_plain; [|done..].
      apply Forall_app. split; [done|]. by repeat constructor.
Qed.

(** A name of few characters is within the limit of the kernel. *)
Lemma fs_bytes_length name : Os.fs_bytes name <= 2 * length name.
Proof.
  induction name as [|c name IH]; simpl; [done|].
  destruct (_ <? _); lia.
Qed.

Lemma record_names_short line r :
  process_line line = Ok (Some r) ->
  Os.fs_bytes (season r) <= Os.NAME_MAX
  /\ Os.fs_bytes (episode r) <= Os.NAME_MAX.
Proof.
  intros (piece & parts0 & shot0 & _ & _ & _ & _ & Hre & -> & Hep & _)
    %process_line_inv.
  destruct (re_match_shape _ Hre)
    as (d1 & d2 & digits & tail & -> & H1 & H2 & Hd & Hlen & Htail).
  simpl in Hep. rewrite pad_episode_digits in Hep by done.
  unfold Os.NAME_MAX. split.
  - pose proof (fs_bytes_length (take 3 ("s"%char :: d1 :: d2 :: "e"%char
                                          :: digits ++ tail))) as Hle.
    rewrite length_take in Hle. lia.
  - pose proof (fs_bytes_length (episode r)) as Hle.
    assert (length (episode r) <= 5); [|lia].
    destruct Htail as [-> | ->]; injection Hep as <-.
    + rewrite zfill_digits by done. simpl.
      rewrite length_app, length_replicate. lia.
    + simpl. rewrite length_app. simpl. lia.
Qed.

End NameFacts.

(** * Properties of the file system *)

Section FsFacts.

Implicit Types (fs : filesystem) (loc : list str) (names : list str).
Implicit Types (p name : str).

Lemma extends_refl fs : extends fs fs.
Proof. by split. Qed.

Lemma extends_trans fs1 fs2 fs3 :
  extends fs2 fs1 -> extends fs3 fs2 -> extends fs3 fs1.
Proof. intros [H1 E1] [H2 E2]. split; [by transitivity (dirs fs2)|congruence]. Qed.

(** The state with one directory more. *)
Lemma extends_add fs loc : extends (mkFs ({[loc]} ∪ dirs fs) (cwd fs)) fs.
Proof. split; simpl; [apply union_subseteq_r|done]. Qed.

Lemma is_dir_add fs loc :
  Os.is_dir (mkFs ({[loc]} ∪ dirs fs) (cwd fs)) loc = true.
Proof.
  apply bool_decide_eq_true. right. simpl.
  by apply elem_of_union_l, elem_of_singleton.
Qed.

Lemma add_present fs loc :
  loc ∈ dirs fs -> mkFs ({[loc]} ∪ dirs fs) (cwd fs) = fs.
Proof.
  intros Hin. destruct fs as [d w]. simpl in *. f_equal.
  by apply subseteq_union_1_L, singleton_subseteq_l.
Qed.

Lemma is_dir_mono fs fs' loc :
  extends fs' fs -> Os.is_dir fs loc = true -> Os.is_dir fs' loc = true.
Proof.
  intros [Hsub _]. unfold Os.is_dir.
  rewrite !bool_decide_eq_true. intros [->|Hin]; [by left|].
  right. by apply Hsub.
Qed.

Lemma walk_mono fs fs' loc names l :
  extends fs' fs ->
  Os.walk fs loc names = Ok l -> Os.walk fs' loc names = Ok l.
Proof.
  intros Hext. revert loc.
  induction names as [|name names IH]; intros loc; cbn [Os.walk]; [done|].
  destruct (bool_decide (name = py ".")); [by auto|].
  destruct (bool_decide (name = py "..")); [by auto|].
  destruct (Os.NAME_MAX <? Os.fs_bytes name); [done|].
  destruct (Os.is_dir fs (loc ++ [name])) eqn:Hd; [|done].
  rewrite (is_dir_mono _ _ _ Hext Hd). auto.
Qed.

Lemma walk_app fs loc names names' :
  Os.walk fs loc (names ++ names')
  = Os.walk fs loc names ≫= fun l => Os.walk fs l names'.
Proof.
  revert loc.
  induction names as [|name names IH]; intros loc; cbn [Os.walk app]; [done|].
  destruct (bool_decide (name = py ".")); [by auto|].
  destruct (bool_decide (name = py "..")); [by auto|].
  destruct (Os.NAME_MAX <? Os.fs_bytes name); [done|].
  by destruct (Os.is_dir fs (loc ++ [name])).
Qed.

(** The names a lookup went down are within the limit. *)
Lemma walk_name fs loc name :
  name <> py "." -> name <> py ".." ->
  Os.walk fs loc [name]
  = if Os.NAME_MAX <? Os.fs_bytes name then Raise OSError
    else if Os.is_dir fs (loc ++ [name]) then Ok (loc ++ [name])
    else Raise FileNotFoundError.
Proof.
  intros Hdot Hdots. cbn [Os.walk].
  by rewrite !bool_decide_eq_false_2 by done.
Qed.

Lemma fs_bytes_app (a b : str) :
  Os.fs_bytes (a ++ b) = Os.fs_bytes a + Os.fs_bytes b.
Proof.
  induction a as [|c a IH]; simpl; [done|]. rewrite IH. lia.
Qed.

Lemma fs_bytes_seps (seps : str) :
  Forall (fun c => c = SEP) seps -> Os.fs_bytes seps = length seps.
Proof.
  induction 1 as [|c seps -> _ IH]; simpl; [done|]. by rewrite IH.
Qed.

Lemma start_extends fs fs' p : extends fs' fs -> Os.start fs' p = Os.start fs p.
Proof. intros [_ Hcwd]. unfold Os.start. by rewrite Hcwd. Qed.

Lemma stat_mono fs fs' p loc :
  extends fs' fs -> Os.stat fs p = Ok loc -> Os.stat fs' p = Ok loc.
Proof.
  intros Hext. unfold Os.stat. case_bool_decide; [done|].
  destruct (Os.PATH_MAX <=? Os.fs_bytes p); [done|].
  destruct p as [|c p]; [done|].
  rewrite (start_extends _ _ _ Hext).
  intros Hw. by rewrite (walk_mono _ _ _ _ _ Hext Hw).
Qed.

Lemma path_exists_mono fs fs' p :
  extends fs' fs ->
  Os.path_exists fs p = true -> Os.path_exists fs' p = true.
Proof.
  intros Hext. unfold Os.path_exists.
  destruct (Os.stat fs p) as [loc|] eqn:Hs; [|done].
  by rewrite (stat_mono _ _ _ _ Hext Hs).
Qed.

Lemma path_exists_stat fs p :
  Os.path_exists fs p = true <-> exists loc, Os.stat fs p = Ok loc.
Proof.
  unfold Os.path_exists. destruct (Os.stat fs p); split; eauto; try done.
  by intros [? ?].
Qed.

(** *** Directories are only added *)

Lemma mkdir_extends p fs : extends (Os.mkdir p fs).2 fs.
Proof.
  unfold Os.mkdir. case_bool_decide; [apply extends_refl|].
  destruct (Os.PATH_MAX <=? Os.fs_bytes p); [apply extends_refl|].
  destruct p; [apply extends_refl|].
  destruct (rev _) as [|name above]; [apply extends_refl|].
  destruct (Os.walk _ _ _); [|apply extends_refl].
  destruct (bool_decide _); [apply extends_refl|].
  destruct (Os.NAME_MAX <? Os.fs_bytes name); [apply extends_refl|].
  destruct (Os.is_dir _ _); [apply extends_refl|].
  apply extends_add.
Qed.

Lemma makedirs_at_extends depth name fs :
  extends (Os.makedirs_at depth name fs).2 fs.
Proof.
  revert name fs.
  induction depth as [|depth IH]; intros name fs; cbn [Os.makedirs_at].
  { apply extends_refl. }
  destruct (Os.split_name name) as [head tail].
  destruct head as [|c h]; [apply mkdir_extends|].
  destruct tail as [|c' t]; [apply mkdir_extends|].
  destruct (Os.path_exists fs _); [apply mkdir_extends|].
  specialize (IH (c :: h) fs).
  destruct (Os.makedirs_at depth (c :: h) fs) as [[[]|e] fs1]; simpl in IH.
  - destruct (bool_decide _); [done|].
    eapply extends_trans; [done|apply mkdir_extends].
  - destruct e; try done.
    destruct (bool_decide _); [done|].
    eapply extends_trans; [done|apply mkdir_extends].
Qed.

Lemma make_unless_exists_extends p fs :
  extends (make_unless_exists p fs).2 fs.
Proof.
  unfold make_unless_exists. destruct (negb _).
  - apply makedirs_at_extends.
  - apply extends_refl.
Qed.

Lemma io_seq_extends (m k : IO unit) fs :
  (forall fs, extends (m fs).2 fs) -> (forall fs, extends (k fs).2 fs) ->
  extends (io_seq m k fs).2 fs.
Proof.
  intros Hm Hk. unfold io_seq. specialize (Hm fs).
  destruct (m fs) as [[[]|e] fs1]; simpl in *; [|done].
  eapply extends_trans; [done|apply Hk].
Qed.

Lemma folders_of_extends base r fs : extends (folders_of base r fs).2 fs.
Proof.
  unfold folders_of.
  repeat (apply io_seq_extends; intros);
    apply make_unless_exists_extends.
Qed.

Lemma for_records_extends base records fs :
  extends (for_records base records fs).2 fs.
Proof.
  revert fs. induction records as [|r records IH]; intros fs; simpl.
  - apply extends_refl.
  - apply io_seq_extends; [intros; apply folders_of_extends|done].
Qed.

End FsFacts.

(** * Properties of paths *)

Section PathFacts.

Implicit Types (p q a b head tail name seps : str) (c : ascii).
Implicit Types (f : ascii -> bool).

Lemma split_char_app c a b cur :
  Py.split_from [c] 0 cur (a ++ c :: b)
  = Py.split_from [c] 0 cur a ++ Py.split_from [c] 0 [] b.
Proof.
  revert cur. induction a as [|x a IH]; intros cur; simpl.
  - by rewrite Ascii.eqb_refl.
  - destruct (Ascii.eqb x c); simpl; by rewrite IH.
Qed.

Lemma split_char_none c s cur :
  c ∉ s -> Py.split_from [c] 0 cur s = [rev cur ++ s].
Proof.
  revert cur. induction s as [|x s IH]; intros cur Hc; simpl.
  - by rewrite app_nil_r.
  - apply not_elem_of_cons in Hc as [Hx Hs].
    destruct (Ascii.eqb x c) eqn:E.
    { apply ascii_eqb_true in E. by subst. }
    simpl. rewrite IH by done. simpl. by rewrite <- app_assoc.
Qed.

Lemma components_nil : Os.components [] = [].
Proof. reflexivity. Qed.

Lemma components_app_sep a b :
  Os.components (a ++ SEP :: b) = Os.components a ++ Os.components b.
Proof.
  unfold Os.components, Py.split.
  by rewrite split_char_app, filter_app.
Qed.

Lemma components_cons_sep b : Os.components (SEP :: b) = Os.components b.
Proof. apply (components_app_sep [] b). Qed.

Lemma components_snoc_sep a : Os.components (a ++ [SEP]) = Os.components a.
Proof. by rewrite components_app_sep, components_nil, app_nil_r. Qed.

(** A name without separator is its own single component. *)
Lemma components_name name :
  name <> [] -> SEP ∉ name -> Os.components name = [name].
Proof.
  intros Hne Hsep. unfold Os.components, Py.split.
  rewrite split_char_none by done. simpl.
  rewrite filter_cons. by destruct (decide (name <> [])).
Qed.

Lemma components_app_seps a seps b :
  Forall (fun c => c = SEP) seps -> seps <> [] ->
  Os.components (a ++ seps ++ b) = Os.components a ++ Os.components b.
Proof.
  intros Hall Hne. destruct seps as [|c seps]; [done|].
  apply Forall_cons in Hall as [-> Hall]. simpl.
  rewrite components_app_sep. f_equal. clear Hne.
  induction Hall as [|c seps -> _ IH]; simpl; [done|].
  by rewrite components_cons_sep.
Qed.

Lemma components_seps_r a seps :
  Forall (fun c => c = SEP) seps ->
  Os.components (a ++ seps) = Os.components a.
Proof.
  intros Hall. destruct seps as [|c seps]; [by rewrite app_nil_r|].
  rewrite <- (app_nil_r (c :: seps)).
  rewrite components_app_seps by done.
  by rewrite components_nil, app_nil_r.
Qed.

(** *** Scanning *)

Lemma take_drop_while f s : Os.take_while f s ++ Os.drop_while f s = s.
Proof.
  induction s as [|c s IH]; simpl; [done|].
  destruct (f c); simpl; [by rewrite IH|done].
Qed.

Lemma take_while_all f s : Forall (fun c => f c = true) (Os.take_while f s).
Proof.
  induction s as [|c s IH]; simpl; [done|].
  destruct (f c) eqn:E; [by constructor|done].
Qed.

Lemma drop_while_head f s c s' :
  Os.drop_while f s = c :: s' -> f c = false.
Proof.
  induction s as [|x s IH]; simpl; [done|].
  destruct (f x) eqn:E; [done|]. by intros [= <- _].
Qed.

Lemma drop_while_nil f s :
  Os.drop_while f s = [] -> forallb f s = true.
Proof.
  induction s as [|x s IH]; simpl; [done|].
  destruct (f x); [done|discriminate].
Qed.

Lemma is_sep_true c : Os.is_sep c = true <-> c = SEP.
Proof. apply ascii_eqb_true. Qed.

Lemma is_sep_false c : negb (Os.is_sep c) = true <-> c <> SEP.
Proof.
  rewrite negb_true_iff. unfold Os.is_sep.
  destruct (Ascii.eqb c SEP) eqn:E.
  - apply ascii_eqb_true in E. by split.
  - split; [|done]. intros _ ->. by rewrite Ascii.eqb_refl in E.
Qed.

(** *** Trimming and splitting a path *)

(** A path is a text that is empty or ends with a separator, followed by
    a last name without separator. *)
Lemma last_name p :
  exists q name,
    p = q ++ name /\ (SEP ∉ name) /\
    (q = [] \/ exists q', q = q' ++ [SEP]) /\
    Os.path_split p = (Os.trim_head q, name).
Proof.
  exists (rev (Os.drop_while (fun c => negb (Os.is_sep c)) (rev p))),
         (rev (Os.take_while (fun c => negb (Os.is_sep c)) (rev p))).
  repeat split.
  - rewrite <- rev_app_distr, take_drop_while. by rewrite rev_involutive.
  - intros Hin%list_elem_of_In%in_rev%list_elem_of_In.
    pose proof (take_while_all (fun c => negb (Os.is_sep c)) (rev p)) as Hall.
    rewrite Forall_forall in Hall. apply Hall in Hin.
    by apply is_sep_false in Hin.
  - destruct (Os.drop_while _ (rev p)) as [|c r] eqn:Hd; [by left|].
    right. exists (rev r). simpl. f_equal.
    apply drop_while_head in Hd. apply negb_false_iff in Hd.
    by apply is_sep_true in Hd as ->.
Qed.

Lemma trim_head_snoc a :
  a <> [] -> Py.endswith a [SEP] = false -> Os.trim_head (a ++ [SEP]) = a.
Proof.
  intros Ha He. unfold Py.endswith in He. simpl in He.
  destruct (rev a) as [|c l] eqn:Hrev.
  { apply (f_equal (@rev ascii)) in Hrev. by rewrite rev_involutive in Hrev. }
  rewrite andb_true_r in He.
  assert (a = rev l ++ [c]) as ->.
  { apply (f_equal (@rev ascii)) in Hrev. by rewrite rev_involutive in Hrev. }
  unfold Os.trim_head.
  destruct ((rev l ++ [c]) ++ [SEP]) as [|x y] eqn:E; [by destruct (rev l)|].
  rewrite <- E.
  assert (forallb Os.is_sep ((rev l ++ [c]) ++ [SEP]) = false) as ->.
  { rewrite !forallb_app. simpl. unfold Os.is_sep at 2. rewrite He.
    by rewrite andb_false_r. }
  rewrite !rev_app_distr, rev_involutive. simpl.
  unfold Os.is_sep. by rewrite He.
Qed.

(** The trimmed head: the text without its trailing separators, not
    empty unless the text is. *)
Lemma trim_head_spec q :
  exists seps,
    q = Os.trim_head q ++ seps /\ Forall (fun c => c = SEP) seps /\
    (q <> [] -> Os.trim_head q <> []).
Proof.
  unfold Os.trim_head. destruct q as [|c q]; [by exists []|].
  destruct (forallb Os.is_sep (c :: q)) eqn:Hall.
  { exists []. by rewrite app_nil_r. }
  exists (rev (Os.take_while Os.is_sep (rev (c :: q)))). repeat split.
  - rewrite <- rev_app_distr, take_drop_while. by rewrite rev_involutive.
  - apply Forall_forall. intros x Hin%list_elem_of_In%in_rev%list_elem_of_In.
    pose proof (take_while_all Os.is_sep (rev (c :: q))) as Htw.
    rewrite Forall_forall in Htw. by apply is_sep_true, Htw.
  - intros _ Hnil. apply (f_equal (@rev ascii)) in Hnil.
    rewrite rev_involutive in Hnil. apply drop_while_nil in Hnil.
    rewrite forallb_forall in Hnil.
    assert (forallb Os.is_sep (c :: q) = true); [|congruence].
    apply forallb_forall. intros x Hx. apply Hnil. by rewrite <- in_rev.
Qed.

Lemma startswith_prefix (a b : str) sep :
  a <> [] -> Py.startswith (a ++ b) [sep] = Py.startswith a [sep].
Proof. by destruct a. Qed.

Lemma elem_of_seps seps c :
  Forall (fun c => c = SEP) seps -> c ∈ seps -> c = SEP.
Proof. rewrite Forall_forall. auto. Qed.

(** What [os.path.split] keeps of a path. *)
Lemma path_split_spec p head tail :
  Os.path_split p = (head, tail) ->
  (SEP ∉ tail) /\
  Os.components p = Os.components head ++ Os.components tail /\
  (head <> [] -> Py.startswith p [SEP] = Py.startswith head [SEP]) /\
  (NUL ∈ p <-> NUL ∈ head \/ NUL ∈ tail) /\
  length head + length tail <= length p.
Proof.
  destruct (last_name p) as (q & name & Hp & Hname & Hq & ->).
  intros [= <- <-].
  destruct (trim_head_spec q) as (seps & Hseps & Hall & Hne).
  set (h := Os.trim_head q) in *. clearbody h.
  split; [done|].
  assert (NUL ∉ seps) as Hnul.
  { intros Hin. by apply (elem_of_seps _ _ Hall) in Hin. }
  assert (Os.components q = Os.components h) as Htrim.
  { rewrite Hseps. by apply components_seps_r. }
  repeat split.
  - rewrite <- Htrim, Hp.
    destruct Hq as [->|[q' ->]]; [done|].
    rewrite <- app_assoc. simpl.
    by rewrite components_app_sep, components_snoc_sep.
  - intros Hhead. rewrite Hp, Hseps, <- app_assoc.
    by apply startswith_prefix.
  - rewrite Hp, Hseps. rewrite !elem_of_app. tauto.
  - intros H. rewrite Hp, Hseps. rewrite !elem_of_app. tauto.
  - rewrite Hp, Hseps. rewrite !length_app. lia.
Qed.

(** The same for the double split of [os.makedirs]. *)
Lemma split_name_spec p head tail :
  Os.split_name p = (head, tail) ->
  (SEP ∉ tail) /\
  Os.components p = Os.components head ++ Os.components tail /\
  (head <> [] -> Py.startswith p [SEP] = Py.startswith head [SEP]) /\
  (NUL ∈ p <-> NUL ∈ head \/ NUL ∈ tail) /\
  length head + length tail <= length p.
Proof.
  unfold Os.split_name.
  destruct (Os.path_split p) as [h t] eqn:Hs1.
  destruct (path_split_spec _ _ _ Hs1) as (Ht & Hc & Hst & Hnul & Hlen).
  destruct t as [|c t]; [|by intros [= <- <-]].
  intros Hs2.
  destruct (path_split_spec _ _ _ Hs2) as (Ht' & Hc' & Hst' & Hnul' & Hlen').
  split; [done|]. repeat split.
  - by rewrite Hc, components_nil, app_nil_r.
  - intros Hhead. rewrite Hst, Hst'; [done..|].
    intros ->. destruct head; [done|simpl in *; lia].
  - rewrite Hnul, <- Hnul'. rewrite elem_of_nil. tauto.
  - rewrite Hnul, <- Hnul'. rewrite elem_of_nil. tauto.
  - simpl in *. lia.
Qed.

End PathFacts.

(** * Properties of directory creation *)

Section MkdirFacts.

Implicit Types (fs : filesystem) (loc : list str) (names : list str).
Implicit Types (p q a b head tail name : str).

Lemma walk_raises fs loc names e :
  Os.walk fs loc names = Raise e -> e = OSError \/ e = FileNotFoundError.
Proof.
  revert loc.
  induction names as [|name names IH]; intros loc; cbn [Os.walk]; [done|].
  destruct (bool_decide (name = py ".")); [apply IH|].
  destruct (bool_decide (name = py "..")); [apply IH|].
  destruct (Os.NAME_MAX <? Os.fs_bytes name); [intros [= <-]; by left|].
  destruct (Os.is_dir fs (loc ++ [name])); [apply IH|].
  intros [= <-]. by right.
Qed.

Lemma stat_walk fs p :
  (NUL ∉ p) -> p <> [] -> Os.fs_bytes p < Os.PATH_MAX ->
  Os.stat fs p = Os.walk fs (Os.start fs p) (Os.components p).
Proof.
  intros Hnul Hp Hlen. unfold Os.stat.
  rewrite bool_decide_eq_false_2 by done.
  rewrite (proj2 (Nat.leb_gt _ _)) by done. by destruct p.
Qed.

Lemma stat_Ok_inv fs p loc :
  Os.stat fs p = Ok loc ->
  (NUL ∉ p) /\ p <> [] /\
  Os.walk fs (Os.start fs p) (Os.components p) = Ok loc.
Proof.
  unfold Os.stat. case_bool_decide as Hnul; [done|].
  destruct (Os.PATH_MAX <=? Os.fs_bytes p); [done|].
  by destruct p as [|c p].
Qed.

Lemma stat_Ok_bytes fs p loc :
  Os.stat fs p = Ok loc -> Os.fs_bytes p < Os.PATH_MAX.
Proof.
  unfold Os.stat. case_bool_decide as Hnul; [done|].
  by destruct (Nat.leb_spec Os.PATH_MAX (Os.fs_bytes p)).
Qed.

(** The lookup of a path depends on its names and on where it starts. *)
Lemma stat_congr fs p q :
  p <> [] -> q <> [] -> (NUL ∈ p <-> NUL ∈ q) ->
  Py.startswith p [SEP] = Py.startswith q [SEP] ->
  Os.components p = Os.components q ->
  Os.fs_bytes p < Os.PATH_MAX -> Os.fs_bytes q < Os.PATH_MAX ->
  Os.stat fs p = Os.stat fs q.
Proof.
  intros Hp Hq Hnul Hst Hc Hlp Hlq. unfold Os.stat, Os.start.
  rewrite (bool_decide_ext _ _ Hnul), Hst, Hc.
  rewrite !(proj2 (Nat.leb_gt _ _)) by done.
  by destruct p, q.
Qed.

Lemma mkdir_unfold p fs :
  NUL ∉ p -> p <> [] -> Os.fs_bytes p < Os.PATH_MAX ->
  Os.mkdir p fs
  = match rev (Os.components p) with
    | [] => (Raise FileExistsError, fs)
    | name :: above =>
        match Os.walk fs (Os.start fs p) (rev above) with
        | Raise e => (Raise e, fs)
        | Ok loc =>
            if bool_decide (name = py "." \/ name = py "..")
            then (Raise FileExistsError, fs)
            else if Os.NAME_MAX <? Os.fs_bytes name then (Raise OSError, fs)
            else if Os.is_dir fs (loc ++ [name])
            then (Raise FileExistsError, fs)
            else (Ok (), mkFs ({[loc ++ [name]]} ∪ dirs fs) (cwd fs))
        end
    end.
Proof.
  intros Hnul Hp Hlen. unfold Os.mkdir.
  rewrite bool_decide_eq_false_2 by done.
  rewrite (proj2 (Nat.leb_gt _ _)) by done. by destruct p.
Qed.

(** A path too long is refused, by [os.mkdir] and by the lookup. *)
Lemma mkdir_long p fs :
  NUL ∉ p -> Os.PATH_MAX <= Os.fs_bytes p ->
  Os.mkdir p fs = (Raise OSError, fs) /\ Os.path_exists fs p = false.
Proof.
  intros Hnul Hlen. unfold Os.mkdir, Os.path_exists, Os.stat.
  rewrite !bool_decide_eq_false_2 by done.
  by rewrite !(proj2 (Nat.leb_le _ _)) by done.
Qed.

(** After [os.mkdir] returned, or raised [FileExistsError], the path
    exists. *)
Lemma mkdir_exists p fs o fs' :
  Os.mkdir p fs = (o, fs') ->
  o = Ok () \/ o = Raise FileExistsError ->
  Os.path_exists fs' p = true.
Proof.
  destruct (decide (NUL ∈ p)) as [Hnul|Hnul].
  { unfold Os.mkdir. rewrite bool_decide_eq_true_2 by done.
    intros [= <- _] [?|?]; done. }
  destruct (Nat.leb_spec Os.PATH_MAX (Os.fs_bytes p)) as [Hlong|Hlen].
  { rewrite (proj1 (mkdir_long p fs Hnul Hlong)).
    intros [= <- _] [?|?]; done. }
  destruct (decide (p = [])) as [->|Hne].
  { unfold Os.mkdir. rewrite bool_decide_eq_false_2 by done.
    rewrite (proj2 (Nat.leb_gt _ _)) by done.
    intros [= <- _] [?|?]; done. }
  rewrite mkdir_unfold by done.
  destruct (rev (Os.components p)) as [|name above] eqn:Hrev.
  { intros [= <- <-] _. apply path_exists_stat.
    apply (f_equal (@rev str)) in Hrev. rewrite rev_involutive in Hrev.
    rewrite stat_walk, Hrev by done. simpl. eauto. }
  assert (Os.components p = rev above ++ [name]) as Hc.
  { apply (f_equal (@rev str)) in Hrev. by rewrite rev_involutive in Hrev. }
  destruct (Os.walk fs _ (rev above)) as [loc|e] eqn:Hw.
  2:{ apply walk_raises in Hw.
      intros [= <- _] [?|?]; destruct Hw; congruence. }
  case_bool_decide as Hdots.
  { intros [= <- <-] _. apply path_exists_stat.
    rewrite stat_walk, Hc, walk_app, Hw by done.
    cbn [mbind result_bind Os.walk].
    destruct Hdots as [-> | ->].
    - rewrite bool_decide_eq_true_2 by done. eauto.
    - rewrite bool_decide_eq_false_2 by done.
      rewrite bool_decide_eq_true_2 by done. eauto. }
  destruct (Os.NAME_MAX <? Os.fs_bytes name) eqn:Hname;
    [intros [= <- _] [?|?]; done|].
  destruct (Os.is_dir fs (loc ++ [name])) eqn:Hdir.
  - intros [= <- <-] _. apply path_exists_stat.
    rewrite stat_walk, Hc, walk_app, Hw by done.
    cbn [mbind result_bind].
    rewrite walk_name, Hname, Hdir by tauto. eauto.
  - intros [= <- <-] _. apply path_exists_stat.
    set (fs' := mkFs ({[loc ++ [name]]} ∪ dirs fs) (cwd fs)).
    assert (extends fs' fs) as Hext by apply extends_add.
    rewrite stat_walk, Hc, walk_app by done.
    rewrite (start_extends _ _ _ Hext), (walk_mono _ _ _ _ _ Hext Hw).
    cbn [mbind result_bind].
    rewrite walk_name, Hname by tauto.
    unfold fs'. rewrite is_dir_add. eauto.
Qed.

(** The double split of [os.makedirs] keeps no more bytes than the path
    has. *)
Lemma path_split_bytes p head tail :
  Os.path_split p = (head, tail) ->
  Os.fs_bytes head + Os.fs_bytes tail <= Os.fs_bytes p.
Proof.
  destruct (last_name p) as (q & name & Hp & Hname & Hq & ->).
  intros [= <- <-].
  destruct (trim_head_spec q) as (seps & Hseps & Hall & Hne).
  rewrite Hp. rewrite Hseps at 2. rewrite !fs_bytes_app. lia.
Qed.

Lemma split_name_bytes p head tail :
  Os.split_name p = (head, tail) ->
  Os.fs_bytes head + Os.fs_bytes tail <= Os.fs_bytes p.
Proof.
  unfold Os.split_name.
  destruct (Os.path_split p) as [h t] eqn:Hs1.
  apply path_split_bytes in Hs1.
  destruct t as [|c t]; [|by intros [= <- <-]].
  intros Hs2%path_split_bytes. simpl in *. lia.
Qed.

(** After [os.makedirs] returned, or raised [FileExistsError], a path
    that is not too long exists. *)
Lemma makedirs_at_exists depth name fs o fs' :
  Os.makedirs_at depth name fs = (o, fs') ->
  o = Ok () \/ o = Raise FileExistsError ->
  Os.fs_bytes name < Os.PATH_MAX ->
  Os.path_exists fs' name = true.
Proof.
  revert name fs o fs'.
  induction depth as [|depth IH]; intros name fs o fs'; cbn [Os.makedirs_at].
  { intros [= <- _] [?|?]; done. }
  destruct (Os.split_name name) as [head tail] eqn:Hsplit.
  pose proof (split_name_bytes _ _ _ Hsplit) as Hbytes.
  destruct head as [|c h] eqn:Hhead; [intros; by eapply mkdir_exists|].
  destruct tail as [|c' t] eqn:Htail; [intros; by eapply mkdir_exists|].
  rewrite <- Hhead, <- Htail in *.
  destruct (Os.path_exists fs head); [intros; by eapply mkdir_exists|].
  destruct (Os.makedirs_at depth head fs) as [o1 fs1] eqn:Hrec.
  assert (o1 = Ok () \/ o1 = Raise FileExistsError ->
          (if bool_decide (tail = py ".") then (Ok (), fs1)
           else Os.mkdir name fs1) = (o, fs') ->
          o = Ok () \/ o = Raise FileExistsError ->
          Os.fs_bytes name < Os.PATH_MAX ->
          Os.path_exists fs' name = true) as Hcont.
  { intros Ho1 Hres Ho Hlen.
    assert (Os.fs_bytes head < Os.PATH_MAX) as Hlh by lia.
    specialize (IH _ _ _ _ Hrec Ho1 Hlh).
    case_bool_decide as Hdot; [|by apply (mkdir_exists name fs1 o)].
    injection Hres as <- <-.
    apply path_exists_stat in IH as [loc Hloc].
    apply stat_Ok_inv in Hloc as (Hnul & Hne & Hw).
    destruct (split_name_spec _ _ _ Hsplit) as (_ & Hc & Hst & Hn & _).
    apply path_exists_stat. exists loc.
    rewrite stat_walk.
    - unfold Os.start. rewrite Hst by done. fold (Os.start fs1 head).
      rewrite Hc, walk_app, Hw, Hdot. reflexivity.
    - rewrite Hn, Hdot. intros [?|Hin]; [done|].
      apply list_elem_of_singleton in Hin. discriminate.
    - intros ->. by rewrite Hdot in Hsplit.
    - done. }
  destruct o1 as [[]|e]; [apply Hcont; by left|].
  destruct e; try (intros [= <- _] [?|?]; done).
  apply Hcont; by right.
Qed.

Lemma mkdir_outcome p fs :
  (Os.mkdir p fs).1 <> Raise RecursionError.
Proof.
  unfold Os.mkdir. case_bool_decide; [done|].
  destruct (Os.PATH_MAX <=? Os.fs_bytes p); [done|].
  destruct p; [done|]. destruct (rev _) as [|name above]; [done|].
  destruct (Os.walk _ _ _) as [loc|e] eqn:Hw.
  - destruct (bool_decide _); [done|].
    destruct (Os.NAME_MAX <? Os.fs_bytes name); [done|].
    by destruct (Os.is_dir _ _).
  - apply walk_raises in Hw. simpl. destruct Hw; congruence.
Qed.

(** The nesting of [os.makedirs] stays within the length of the path:
    [RecursionError] is never raised. *)
Lemma makedirs_at_depth depth name fs :
  length name < depth ->
  (Os.makedirs_at depth name fs).1 <> Raise RecursionError.
Proof.
  revert name fs.
  induction depth as [|depth IH]; intros name fs Hlen; [lia|].
  cbn [Os.makedirs_at].
  destruct (Os.split_name name) as [head tail] eqn:Hsplit.
  destruct (split_name_spec _ _ _ Hsplit) as (_ & _ & _ & _ & Hle).
  destruct head as [|c h] eqn:Hhead; [apply mkdir_outcome|].
  destruct tail as [|c' t] eqn:Htail; [apply mkdir_outcome|].
  rewrite <- Hhead in *.
  destruct (Os.path_exists fs head); [apply mkdir_outcome|].
  assert (length head < depth) as Hd by (simpl in Hle; lia).
  specialize (IH head fs Hd).
  destruct (Os.makedirs_at depth head fs) as [[[]|e] fs1]; simpl in IH.
  - destruct (bool_decide _); [done|apply mkdir_outcome].
  - destruct e; try done; destruct (bool_decide _);
      [done|apply mkdir_outcome].
Qed.

Lemma makedirs_outcome name fs :
  (Os.makedirs name fs).1 <> Raise RecursionError.
Proof. apply makedirs_at_depth. lia. Qed.

Lemma make_unless_exists_after p fs fs' :
  make_unless_exists p fs = (Ok (), fs') ->
  Os.fs_bytes p < Os.PATH_MAX ->
  Os.path_exists fs' p = true.
Proof.
  unfold make_unless_exists.
  destruct (Os.path_exists fs p) eqn:Hex; simpl.
  - by intros [= <-].
  - intros H Hlen. apply (makedirs_at_exists _ _ _ _ _ H); [by left|done].
Qed.

Lemma make_unless_exists_noop p fs :
  Os.path_exists fs p = true -> make_unless_exists p fs = (Ok (), fs).
Proof. intros H. unfold make_unless_exists. by rewrite H. Qed.

End MkdirFacts.

(** * Properties of the materializer *)

Section MaterializerFacts.

Implicit Types (fs : filesystem) (loc : list str) (r : ClipRecord).
Implicit Types (p q a b base name : str) (records : list ClipRecord).

Lemma endswith_sep a :
  Py.endswith a [SEP] = true -> exists a', a = a' ++ [SEP].
Proof.
  unfold Py.endswith. simpl. destruct (rev a) as [|c l] eqn:Hrev; [done|].
  rewrite andb_true_r. intros ->%ascii_eqb_true.
  exists (rev l). apply (f_equal (@rev ascii)) in Hrev.
  by rewrite rev_involutive in Hrev.
Qed.

(** Joining a relative path to a path that is not empty. *)
Lemma path_join_spec a b :
  a <> [] -> Py.startswith b [SEP] = false ->
  exists q,
    Os.path_join a b = q ++ b /\
    (exists seps, q = a ++ seps /\ Forall (fun c => c = SEP) seps) /\
    (exists q', q = q' ++ [SEP]).
Proof.
  intros Ha Hb. unfold Os.path_join. rewrite Hb.
  assert (match a with
          | [] => a ++ b
          | _ => if Py.endswith a [SEP] then a ++ b else a ++ [SEP] ++ b
          end
          = if Py.endswith a [SEP] then a ++ b else a ++ [SEP] ++ b) as ->.
  { by destruct a. }
  destruct (Py.endswith a [SEP]) eqn:Hend.
  - exists a. split; [done|]. split; [|by apply endswith_sep].
    exists []. by rewrite app_nil_r.
  - exists (a ++ [SEP]). rewrite <- app_assoc. split; [done|].
    split; [|by eauto]. exists [SEP]. split; [done|]. by constructor.
Qed.

Lemma path_join_stat fs a b :
  a <> [] -> Py.startswith b [SEP] = false ->
  Os.components (Os.path_join a b) = Os.components a ++ Os.components b /\
  Py.startswith (Os.path_join a b) [SEP] = Py.startswith a [SEP] /\
  (NUL ∈ Os.path_join a b <-> NUL ∈ a \/ NUL ∈ b) /\
  Os.path_join a b <> [].
Proof.
  intros Ha Hb.
  destruct (path_join_spec a b Ha Hb)
    as (q & -> & (seps & -> & Hall) & (q' & Hq')).
  assert (NUL ∉ seps) as Hnul.
  { intros Hin. by apply (elem_of_seps _ _ Hall) in Hin. }
  repeat split.
  - rewrite Hq', <- app_assoc. simpl. rewrite components_app_sep.
    rewrite <- (components_snoc_sep q'), <- Hq'.
    by rewrite components_seps_r.
  - rewrite <- !app_assoc. by apply startswith_prefix.
  - rewrite !elem_of_app. tauto.
  - intros H. rewrite !elem_of_app. tauto.
  - by destruct a.
Qed.

(** A joined path holds the bytes of both parts, and one more at most. *)
Lemma path_join_bytes a b :
  a <> [] -> Py.startswith b [SEP] = false ->
  Os.fs_bytes a + Os.fs_bytes b <= Os.fs_bytes (Os.path_join a b)
  /\ Os.fs_bytes (Os.path_join a b) <= Os.fs_bytes a + 1 + Os.fs_bytes b.
Proof.
  intros Ha Hb. unfold Os.path_join. rewrite Hb.
  destruct a as [|c a]; [done|].
  destruct (Py.endswith _ _); rewrite !fs_bytes_app; simpl; lia.
Qed.

(** Joining the empty name: the path with a separator at its end. *)
Lemma path_join_nil a :
  a <> [] ->
  Os.path_join a []
  = if Py.endswith a [SEP] then a else a ++ [SEP].
Proof.
  intros Ha. unfold Os.path_join. simpl. destruct a as [|c a]; [done|].
  destruct (Py.endswith _ _); by rewrite ?app_nil_r.
Qed.

(** The head [os.makedirs] splits off a joined path is no longer than
    the first part. *)
Lemma trim_head_join_bytes a b q :
  a <> [] -> Py.startswith b [SEP] = false ->
  Os.path_join a b = q ++ b ->
  Os.fs_bytes (Os.trim_head q) <= Os.fs_bytes a.
Proof.
  intros Ha Hb. unfold Os.path_join. rewrite Hb.
  destruct a as [|c a]; [done|].
  destruct (Py.endswith (c :: a) [SEP]) eqn:E.
  - intros <-%app_inv_tail.
    destruct (trim_head_spec (c :: a)) as (seps & Hseps & _).
    rewrite Hseps at 2. rewrite fs_bytes_app. lia.
  - rewrite app_assoc. intros <-%app_inv_tail.
    by rewrite trim_head_snoc.
Qed.

(** It is a path of the same directory, when it is not too long. *)
Lemma path_join_empty fs a :
  a <> [] -> Os.fs_bytes (Os.path_join a []) < Os.PATH_MAX ->
  Os.stat fs (Os.path_join a []) = Os.stat fs a.
Proof.
  intros Ha Hlen.
  destruct (path_join_stat fs a [] Ha eq_refl) as (Hc & Hst & Hnul & Hne).
  destruct (path_join_bytes a [] Ha eq_refl) as [Hle _].
  apply stat_congr; try done.
  - rewrite Hnul, elem_of_nil. tauto.
  - by rewrite Hc, components_nil, app_nil_r.
  - lia.
Qed.

Lemma take_while_app f (x y : str) :
  Forall (fun c => f c = true) x ->
  (y = [] \/ exists c y', y = c :: y' /\ f c = false) ->
  Os.take_while f (x ++ y) = x /\ Os.drop_while f (x ++ y) = y.
Proof.
  intros Hx Hy. induction Hx as [|c x Hc _ IH]; simpl.
  - destruct Hy as [->|(c & y' & -> & Hc)]; [done|]. simpl. by rewrite Hc.
  - rewrite Hc. destruct IH as [-> ->]. done.
Qed.

(** Splitting a path whose last name is known. *)
Lemma path_split_app q name :
  SEP ∉ name -> (q = [] \/ exists q', q = q' ++ [SEP]) ->
  Os.path_split (q ++ name) = (Os.trim_head q, name).
Proof.
  intros Hname Hq. unfold Os.path_split. rewrite rev_app_distr.
  destruct (take_while_app (fun c => negb (Os.is_sep c)) (rev name) (rev q))
    as [-> ->].
  - apply Forall_forall. intros c Hc%list_elem_of_In%in_rev%list_elem_of_In.
    apply is_sep_false. by intros ->.
  - destruct Hq as [->|[q' ->]]; [by left|]. right.
    rewrite rev_app_distr. simpl. exists SEP, (rev q'). done.
  - by rewrite !rev_involutive.
Qed.

(** A path that ends with a name does not end with a separator. *)
Lemma endswith_name q name :
  name <> [] -> SEP ∉ name -> Py.endswith (q ++ name) [SEP] = false.
Proof.
  intros Hne Hsep. unfold Py.endswith. rewrite rev_app_distr.
  destruct (rev name) as [|c l] eqn:Hrev.
  { apply (f_equal (@rev ascii)) in Hrev. by rewrite rev_involutive in Hrev. }
  simpl. rewrite andb_true_r.
  destruct (Ascii.eqb c SEP) eqn:E; [|done].
  apply ascii_eqb_true in E as ->. destruct Hsep.
  apply list_elem_of_In, in_rev, list_elem_of_In. rewrite Hrev. left.
Qed.

Lemma plain_name_relative name :
  plain_name name -> Py.startswith name [SEP] = false.
Proof.
  intros (Hne & Hsep & _). destruct name as [|c name]; [done|]. simpl.
  rewrite andb_true_r. destruct (Ascii.eqb c SEP) eqn:E; [|done].
  apply ascii_eqb_true in E as ->. destruct Hsep. left.
Qed.

(** Making a plain name under a directory that is there: one directory
    more, unless it was there. *)
Lemma make_unless_exists_name fs a loc name :
  Os.stat fs a = Ok loc -> plain_name name ->
  Os.fs_bytes name <= Os.NAME_MAX ->
  Os.fs_bytes (Os.path_join a name) < Os.PATH_MAX ->
  make_unless_exists (Os.path_join a name) fs
  = (Ok (), mkFs ({[loc ++ [name]]} ∪ dirs fs) (cwd fs))
  /\ Os.stat (mkFs ({[loc ++ [name]]} ∪ dirs fs) (cwd fs))
       (Os.path_join a name) = Ok (loc ++ [name]).
Proof.
  intros Hstat Hplain Hshort Hlen.
  pose proof (plain_name_relative _ Hplain) as Hrel.
  destruct Hplain as (Hne & Hsep & Hnul & Hdot & Hdots).
  destruct (stat_Ok_inv _ _ _ Hstat) as (Hnula & Ha & Hw).
  pose proof (stat_Ok_bytes _ _ _ Hstat) as Hla.
  destruct (path_join_stat fs a name Ha Hrel) as (Hc & Hst & Hn & Hp).
  rewrite (components_name name) in Hc by done.
  assert (NUL ∉ Os.path_join a name) as Hnulp by (rewrite Hn; tauto).
  assert ((Os.NAME_MAX <? Os.fs_bytes name) = false) as Hmax
    by (by apply Nat.ltb_ge).
  set (fs' := mkFs ({[loc ++ [name]]} ∪ dirs fs) (cwd fs)).
  assert (extends fs' fs) as Hext by apply extends_add.
  assert (Os.stat fs' (Os.path_join a name) = Ok (loc ++ [name])) as Hnew.
  { rewrite stat_walk, Hc, walk_app by done.
    unfold Os.start. rewrite Hst. fold (Os.start fs' a).
    rewrite (start_extends _ _ _ Hext), (walk_mono _ _ _ _ _ Hext Hw).
    cbn [mbind result_bind].
    rewrite walk_name, Hmax by done.
    unfold fs'. by rewrite is_dir_add. }
  split; [|done].
  assert (Os.stat fs (Os.path_join a name)
          = if Os.is_dir fs (loc ++ [name]) then Ok (loc ++ [name])
            else Raise FileNotFoundError) as Hold.
  { rewrite stat_walk, Hc, walk_app by done.
    unfold Os.start. rewrite Hst. fold (Os.start fs a). rewrite Hw.
    cbn [mbind result_bind].
    by rewrite walk_name, Hmax by done. }
  unfold make_unless_exists, Os.path_exists. rewrite Hold.
  destruct (Os.is_dir fs (loc ++ [name])) eqn:Hdir; simpl.
  - f_equal. apply bool_decide_eq_true in Hdir as [Hnil|Hin].
    { by destruct loc. }
    unfold fs'. by rewrite add_present.
  - subst fs'. unfold Os.makedirs. cbn [Os.makedirs_at]. unfold Os.split_name.
    destruct (path_join_spec a name Ha Hrel)
      as (q & Hq & (seps & Hseps & Hall) & Hq').
    rewrite Hq, path_split_app by (done || by right).
    destruct name as [|c0 name0] eqn:Hname; [done|]. rewrite <- Hname in *.
    destruct (trim_head_spec q) as (seps' & Htrim & Hall' & Hqne).
    assert (q <> []) as Hqn by (destruct Hq' as [q' ->]; by destruct q').
    specialize (Hqne Hqn).
    assert (Os.stat fs (Os.trim_head q) = Ok loc) as Hhead.
    { rewrite <- Hstat. apply stat_congr; try done.
      - assert (NUL ∈ q <-> NUL ∈ a) as Hqa.
        { rewrite Hseps, elem_of_app. split; [|tauto].
          intros [?|Hin]; [done|]. by apply (elem_of_seps _ _ Hall) in Hin. }
        rewrite <- Hqa. rewrite Htrim at 2. rewrite elem_of_app.
        split; [tauto|]. intros [?|Hin]; [done|].
        by apply (elem_of_seps _ _ Hall') in Hin.
      - transitivity (Py.startswith q [SEP]).
        + rewrite Htrim at 2. symmetry. by apply startswith_prefix.
        + rewrite Hseps. by apply startswith_prefix.
      - transitivity (Os.components q).
        + rewrite Htrim at 2. symmetry. by apply components_seps_r.
        + rewrite Hseps. by apply components_seps_r.
      - assert (Os.fs_bytes (Os.trim_head q) <= Os.fs_bytes (Os.path_join a name))
          as Hle; [|lia].
        rewrite Hq. rewrite Htrim at 2. rewrite !fs_bytes_app. lia. }
    destruct (Os.trim_head q) as [|c1 h1] eqn:Hth; [done|].
    rewrite <- Hth in *. unfold Os.path_exists at 1. rewrite Hhead.
    rewrite <- Hq. rewrite mkdir_unfold by done.
    rewrite Hc, rev_app_distr. simpl. rewrite rev_involutive.
    unfold Os.start. rewrite Hst. fold (Os.start fs a).
    rewrite Hw, Hmax, Hdir.
    rewrite bool_decide_eq_false_2; [done|].
    intros [?|?]; [by apply Hdot|by apply Hdots].
Qed.

End MaterializerFacts.

Section AgainFacts.

Implicit Types (fs : filesystem) (loc : list str) (r : ClipRecord).
Implicit Types (p base name : str) (records : list ClipRecord).

Lemma io_seq_Ok (m k : IO unit) fs fs' :
  io_seq m k fs = (Ok (), fs') ->
  exists fs1, m fs = (Ok (), fs1) /\ k fs1 = (Ok (), fs').
Proof.
  unfold io_seq. destruct (m fs) as [[[]|e] fs1]; [|done]. eauto.
Qed.

Lemma make_unless_exists_again p fs fs' fs'' :
  make_unless_exists p fs = (Ok (), fs') ->
  Os.fs_bytes p < Os.PATH_MAX -> extends fs'' fs' ->
  make_unless_exists p fs'' = (Ok (), fs'').
Proof.
  intros Hp Hlen Hext. apply make_unless_exists_after in Hp; [|done].
  by apply make_unless_exists_noop, (path_exists_mono fs').
Qed.

(** What one tuple made is there in every later state. *)
Lemma folders_of_again base r fs fs' fs'' :
  folders_of base r fs = (Ok (), fs') -> paths_within base r ->
  extends fs'' fs' ->
  folders_of base r fs'' = (Ok (), fs'').
Proof.
  unfold folders_of, paths_within, shot_directory, episode_directory,
    season_directory.
  intros (fs1 & H1 & (fs2 & H2 & H3)%io_seq_Ok)%io_seq_Ok (L1 & L2 & L3) Hext.
  pose proof (make_unless_exists_extends
                (Os.path_join (Os.path_join (Os.path_join base (season r))
                                 (episode r)) (shot r)) fs2) as E3.
  pose proof (make_unless_exists_extends
                (Os.path_join (Os.path_join base (season r)) (episode r))
                fs1) as E2.
  rewrite H3 in E3. rewrite H2 in E2. simpl in E2, E3.
  unfold io_seq.
  rewrite (make_unless_exists_again _ _ _ fs'' H1)
    by eauto using extends_trans.
  rewrite (make_unless_exists_again _ _ _ fs'' H2)
    by eauto using extends_trans.
  by rewrite (make_unless_exists_again _ _ _ fs'' H3).
Qed.

Lemma for_records_again base records fs fs' fs'' :
  for_records base records fs = (Ok (), fs') ->
  Forall (paths_within base) records -> extends fs'' fs' ->
  for_records base records fs'' = (Ok (), fs'').
Proof.
  intros Hrun Hall. revert fs Hrun.
  induction Hall as [|r records Hr _ IH]; intros fs; simpl; [done|].
  intros (fs1 & H1 & H2)%io_seq_Ok Hext.
  pose proof (for_records_extends base records fs1) as E. rewrite H2 in E.
  unfold io_seq.
  rewrite (folders_of_again _ _ _ _ fs'' H1) by eauto using extends_trans.
  by apply (IH fs1).
Qed.

Lemma getcwd_extends fs fs' base :
  extends fs' fs -> Os.getcwd fs = Ok base -> Os.getcwd fs' = Ok base.
Proof.
  intros Hext. pose proof Hext as [_ H]. unfold Os.getcwd. rewrite H.
  destruct (Os.is_dir fs (cwd fs)) eqn:Hd; [|done].
  by rewrite (is_dir_mono _ _ _ Hext Hd).
Qed.

End AgainFacts.

(** * The properties of the specification *)

(** ** C1: a malformed line *)

(** C1 refuted as stated: the line without a marker is not passed over;
    the record of the line after it, which a skipping extraction
    yields, is never produced. *)
Lemma malformed_line_not_skipped :
  parse_edl_file init (Some edl_no_marker)
  = (Raise IndexError, mkApp [clip_wav] [])
  /\ extract_skipping (readlines edl_no_marker) = [clip_wav; clip_mov].
Proof. split; reflexivity. Qed.

(** C1, as amended.  When the first line of a file on which the loop
    body raises is a line with the [REEL] prefix that lacks the [CLIP]
    marker, or one with the prefix and the marker whose clip name has
    an accepted first token, a last token that ends with [.mov] and
    fewer than five tokens, the parse stops there with [IndexError]:
    [clip_data] has grown by the records of the lines before it, no
    line after it is read, and the table keeps the rows it had. *)
Theorem malformed_line_aborts self content before line after :
  readlines content = before ++ line :: after ->
  Forall runs before ->
  Py.startswith (Py.strip line) (py "REEL") = true ->
  ~ occurs (py "CLIP") line \/ short_mov line ->
  parse_edl_file self (Some content)
  = (Raise IndexError,
     mkApp (clip_data self ++ extract_skipping before) (table_widget self)).
Proof.
  intros Hlines Hruns Hreel Hbad.
  assert (process_line line = Raise IndexError) as Hraise.
  { destruct Hbad; [by apply no_clip_raises|by apply short_mov_raises]. }
  unfold parse_edl_file, of_option. rewrite Hlines, for_lines_runs by done.
  simpl. by rewrite Hraise.
Qed.

Lemma malformed_line_aborts_witness :
  parse_edl_file init (Some edl_no_marker)
  = (Raise IndexError,
     mkApp (clip_data init ++
            extract_skipping [py "REEL 001 AX CLIP s02e12_0033-x.wav" ++ [LF]])
           (table_widget init)).
Proof.
  apply (malformed_line_aborts init edl_no_marker
           [py "REEL 001 AX CLIP s02e12_0033-x.wav" ++ [LF]]
           (py "REEL 002 AX" ++ [LF])
           [py "REEL 003 AX CLIP s01e005_show_ep_desc_unused-0007.mov"
            ++ [LF]]).
  - reflexivity.
  - constructor; [|constructor]. intros e. literal.
  - reflexivity.
  - left. apply not_occurs_split; literal.
Defined.

(** A MOV line of fewer than five tokens whose first token the pattern
    does not accept raises nothing: it is passed over, for the test of
    line 173 comes before the index of line 186. *)
Example unaccepted_short_mov_passed_over :
  process_line (py "REEL 002 AX CLIP show_ep.mov") = Ok None
  /\ parse_edl_file init
       (Some (py "REEL 002 AX CLIP show_ep.mov" ++ [LF] ++ edl_wav))
     = (Ok (), mkApp [clip_wav] [clip_wav]).
Proof. split; reflexivity. Qed.

(** ** C2: the list of records across parses *)

(** C2 refuted as stated: after a first file, the parse of a second one
    keeps the record of the first. *)
Lemma second_parse_carries_over :
  clip_data (parse_edl_file (parse_edl_file init (Some edl_wav)).2
                            (Some edl_mov)).2
  = [clip_wav; clip_mov]
  /\ clip_data (parse_edl_file init (Some edl_mov)).2 = [clip_mov].
Proof. split; reflexivity. Qed.

(** C2, as amended.  The list of records is made empty once, when the
    application object is built.  A parse raises what the same file
    raises on a new object, and leaves in [clip_data] the list it found
    followed by the records the same file leaves on a new object; when
    it returns, the table shows the whole list. *)
Theorem parse_appends self content :
  (parse_edl_file self (Some content)).1
  = (parse_edl_file init (Some content)).1
  /\ clip_data (parse_edl_file self (Some content)).2
     = clip_data self ++ clip_data (parse_edl_file init (Some content)).2
  /\ ((parse_edl_file self (Some content)).1 = Ok () ->
      table_widget (parse_edl_file self (Some content)).2
      = clip_data (parse_edl_file self (Some content)).2).
Proof.
  unfold parse_edl_file, of_option. simpl.
  rewrite (for_lines_append (readlines content) (clip_data self)).
  destruct (for_lines (readlines content) []) as [[[]|e] data]; simpl; done.
Qed.

Lemma parse_appends_witness :
  table_widget (parse_edl_file (mkApp [clip_wav] []) (Some edl_mov)).2
  = clip_data (parse_edl_file (mkApp [clip_wav] []) (Some edl_mov)).2.
Proof.
  apply (parse_appends (mkApp [clip_wav] []) edl_mov). reflexivity.
Defined.

(** ** C3: the clip name *)

(** C3 refuted as stated: with a second marker in the line, the clip
    name stops before it. *)
Lemma clip_name_stops_at_second_marker :
  process_line (py "REEL 001 CLIP s01e05_x CLIP y")
  = Ok (Some (mkClip (py "s01e05_x") [] (py "e005") (py "s01")))
  /\ first_occurrence (py "CLIP") (py "REEL 001 ")
       (py "REEL 001 CLIP s01e05_x CLIP y") (py " s01e05_x CLIP y")
  /\ Py.strip (py " s01e05_x CLIP y") = py "s01e05_x CLIP y"
  /\ py "s01e05_x" <> py "s01e05_x CLIP y".
Proof.
  split; [reflexivity|]. split; [|split; literal].
  exact (first_occurrence_split
           (py "REEL 001 CLIP s01e05_x CLIP y") (py "CLIP") (py "REEL 001 ")
           (py " s01e05_x ") [py " y"] ltac:(literal) ltac:(literal)).
Qed.

(** C3, as amended.  The clip name of the record a line yields is the
    text between the leftmost [CLIP] of the line and the next [CLIP]
    after it, or the end of the line when there is no other, trimmed of
    surrounding white space. *)
Theorem clip_name_between_markers line r a b :
  process_line line = Ok (Some r) ->
  first_occurrence (py "CLIP") a line b ->
  (~ occurs (py "CLIP") b -> clip_name r = Py.strip b)
  /\ (forall b1 b2, first_occurrence (py "CLIP") b1 b b2 ->
        clip_name r = Py.strip b1).
Proof.
  intros (piece & _ & _ & _ & Hp & -> & _)%process_line_inv Hocc.
  destruct (split_second line (py "CLIP") piece ltac:(literal) Hp)
    as (a' & b' & Hocc' & Hpiece).
  destruct (first_occurrence_unique _ _ _ _ _ _ Hocc Hocc') as [<- <-].
  split.
  - intros Hno. destruct Hpiece as [[_ ->]|(b2 & Hb)]; [done|].
    destruct Hno. destruct Hb as [-> _]. by exists piece, b2.
  - intros b1 b2 Hb. destruct Hpiece as [[Hno _]|(b2' & Hb')].
    + destruct Hno. destruct Hb as [-> _]. by exists b1, b2.
    + by destruct (first_occurrence_unique _ _ _ _ _ _ Hb Hb') as [-> _].
Qed.

Lemma clip_name_between_markers_witness :
  (~ occurs (py "CLIP") (py " s01e05_x CLIP y") ->
   py "s01e05_x" = Py.strip (py " s01e05_x CLIP y"))
  /\ (forall b1 b2,
        first_occurrence (py "CLIP") b1 (py " s01e05_x CLIP y") b2 ->
        py "s01e05_x" = Py.strip b1).
Proof.
  apply (clip_name_between_markers (py "REEL 001 CLIP s01e05_x CLIP y")
           (mkClip (py "s01e05_x") [] (py "e005") (py "s01"))
           (py "REEL 001 ") (py " s01e05_x CLIP y")).
  - reflexivity.
  - exact (first_occurrence_split
             (py "REEL 001 CLIP s01e05_x CLIP y") (py "CLIP") (py "REEL 001 ")
             (py " s01e05_x ") [py " y"] ltac:(literal) ltac:(literal)).
Defined.

(** ** C4: the shot of a MOV line *)

(** C4.  The file of the one line
    [REEL 001 CLIP s01e005_show_ep_desc_unused-0007.mov] yields exactly
    the record [(clip, "e005s0007", "e005", "s01")], and so does, but
    for the clip name, the line with the shorter numbers [e05] and [7],
    padded with zeros.  Whenever a line whose last token ends with
    [.mov] yields a record, its shot is the episode, the letter s, and
    the text that [parts[4]] holds between its first hyphen and the dot
    after it, padded to four characters; that text holds no hyphen,
    and unless it starts with a plus sign the padding is zeros on its
    left, as many as it lacks to four characters. *)
Theorem mov_line_shot :
  parse_edl_file init
    (Some (py "REEL 001 CLIP s01e005_show_ep_desc_unused-0007.mov"))
  = (Ok (), mkApp [clip_mov] [clip_mov])
  /\ parse_edl_file init
       (Some (py "REEL 001 CLIP s01e05_show_ep_desc_unused-7.mov"))
     = (Ok (), mkApp [clip_mov_short] [clip_mov_short])
  /\ forall line r last_part,
       process_line line = Ok (Some r) ->
       last (Py.split (clip_name r) (py "_")) = Some last_part ->
       Py.endswith last_part (py ".mov") = true ->
       exists p4 a digits : str,
         Py.split (clip_name r) (py "_") !! 4 = Some p4 /\
         Py.split p4 (py "-") !! 1 = Some a /\
         Py.split a (py ".") !! 0 = Some digits /\
         shot r = episode r ++ py "s" ++ Py.zfill digits 4 /\
         ("-"%char ∉ digits) /\
         ((forall rest, digits <> "+"%char :: rest) ->
          shot r = episode r ++ py "s"
                   ++ replicate (4 - length digits) "0"%char ++ digits).
Proof.
  split; [reflexivity|]. split; [reflexivity|].
  intros line r last_part
    (piece & parts0 & shot0 & _ & _ & _ & _ & _ & _ & _ & Hmov & Hwav)
    %process_line_inv Hlast Hext.
  destruct (mov_shot_mov _ _ _ _ _ Hlast Hext Hmov)
    as (p4 & a & digits & H4 & Ha & Hd & ->).
  rewrite (wav_shot_other _ _ _ _ Hlast (endswith_mov_wav _ Hext)) in Hwav.
  injection Hwav as <-.
  assert ("-"%char ∉ digits) as Hno.
  { pose proof (split_piece "-"%char p4 1 a Ha) as Hna.
    destruct (split_first_prefix a (py ".") digits ltac:(literal) Hd)
      as [rest ->].
    intros Hin. apply Hna, elem_of_app. by left. }
  exists p4, a, digits. repeat split; try done.
  intros Hplus. by rewrite zfill_no_hyphen.
Qed.

Lemma mov_line_shot_witness :
  exists p4 a digits : str,
    Py.split (clip_name clip_mov_short) (py "_") !! 4 = Some p4 /\
    Py.split p4 (py "-") !! 1 = Some a /\
    Py.split a (py ".") !! 0 = Some digits /\
    shot clip_mov_short
    = episode clip_mov_short ++ py "s" ++ Py.zfill digits 4 /\
    ("-"%char ∉ digits) /\
    ((forall rest, digits <> "+"%char :: rest) ->
     shot clip_mov_short
     = episode clip_mov_short ++ py "s"
       ++ replicate (4 - length digits) "0"%char ++ digits).
Proof.
  apply (proj2 (proj2 mov_line_shot)
           (py "REEL 001 CLIP s01e05_show_ep_desc_unused-7.mov")
           clip_mov_short (py "unused-7.mov")); reflexivity.
Defined.

(** ** C5: the episode *)

(** C5.  In a line of a file that yields a record, the first token of
    the clip name is the letter s, two digits, the letter e and two or
    three digits; the episode of the record is the letter e followed by
    those last digits padded with zeros to three, and padding it again
    leaves it as it is.  So [e23] gives [e023], and [e123] and [e005]
    stay. *)
Theorem episode_padded :
  (pad_episode (py "e23") = Ok (py "e023")
   /\ pad_episode (py "e123") = Ok (py "e123")
   /\ pad_episode (py "e005") = Ok (py "e005"))
  /\ forall content line r,
       line ∈ readlines content ->
       process_line line = Ok (Some r) ->
       exists (d1 d2 : ascii) (digits : str),
         Py.split (clip_name r) (py "_") !! 0
         = Some ("s"%char :: d1 :: d2 :: "e"%char :: digits) /\
         Forall (fun d => Py.isdigit d = true) digits /\
         (length digits = 2 \/ length digits = 3) /\
         episode r = py "e" ++ Py.zfill digits 3 /\
         pad_episode (episode r) = Ok (episode r).
Proof.
  split; [repeat split; reflexivity|].
  intros content line r Hline%readlines_newline Hp.
  destruct (process_line_inv _ _ Hp)
    as (piece & parts0 & shot0 & _ & _ & _ & H0 & _).
  destruct (accepted_token_shape _ _ _ Hline Hp H0)
    as (d1 & d2 & digits & -> & _ & _ & Hd & Hlen & Hep).
  exists d1, d2, digits. apply getitem_Ok in H0.
  repeat split; try done.
  rewrite Hep.
  destruct digits as [|d4 [|d5 [|d6 [|? ?]]]]; simpl in Hlen; try lia;
    [|done].
  apply Forall_cons in Hd as [H4 _].
  unfold Py.zfill; simpl.
  by rewrite (isdigit_neq d4 "+"), (isdigit_neq d4 "-").
Qed.

Lemma episode_padded_witness :
  exists (d1 d2 : ascii) (digits : str),
    Py.split (clip_name clip_wav) (py "_") !! 0
    = Some ("s"%char :: d1 :: d2 :: "e"%char :: digits) /\
    Forall (fun d => Py.isdigit d = true) digits /\
    (length digits = 2 \/ length digits = 3) /\
    episode clip_wav = py "e" ++ Py.zfill digits 3 /\
    pad_episode (episode clip_wav) = Ok (episode clip_wav).
Proof.
  apply (proj2 episode_padded edl_wav
           (py "REEL 001 AX CLIP s02e12_0033-x.wav" ++ [LF]) clip_wav).
  - vm_compute. left.
  - reflexivity.
Defined.

(** Outside the lines of a file the pattern also accepts a token that a
    line break ends, which is then left unpadded. *)
Example episode_of_broken_token :
  process_line (py "REEL 001 CLIP s01e05" ++ [LF] ++ py "_x")
  = Ok (Some (mkClip (py "s01e05" ++ [LF] ++ py "_x") []
                     (py "e05" ++ [LF]) (py "s01"))).
Proof. reflexivity. Qed.

(** ** C6: the shot of a WAV line *)

(** C6.  Whenever a line whose last token ends with [.wav] yields a
    record, its shot is the episode, the letter s, and the text that
    [parts[1]] holds before its first hyphen, padded to four
    characters; that text holds no hyphen, and unless it starts with a
    plus sign the padding is zeros on its left, as many as it lacks to
    four characters.  Such a line with the prefix, the marker and an
    accepted first token does yield a record: no index is out of range
    on this path.  A line with the prefix whose clip name starts with
    the tokens [s02e12] and [0033-x.wav], or [s02e12] and [33-x.wav],
    and ends with a [.wav] token yields a record of season [s02],
    episode [e012] and shot [e012s0033]. *)
Theorem wav_line_shot :
  (forall line r last_part,
     process_line line = Ok (Some r) ->
     last (Py.split (clip_name r) (py "_")) = Some last_part ->
     Py.endswith last_part (py ".wav") = true ->
     exists p1 a : str,
       Py.split (clip_name r) (py "_") !! 1 = Some p1 /\
       Py.split p1 (py "-") !! 0 = Some a /\
       shot r = episode r ++ py "s" ++ Py.zfill a 4 /\
       ("-"%char ∉ a) /\
       ((forall rest, a <> "+"%char :: rest) ->
        shot r = episode r ++ py "s"
                 ++ replicate (4 - length a) "0"%char ++ a))
  /\ (forall line piece (parts0 : str) last_part,
        Py.startswith (Py.strip line) (py "REEL") = true ->
        Py.getitem (Py.split line (py "CLIP")) 1 = Ok piece ->
        Py.split (Py.strip piece) (py "_") !! 0 = Some parts0 ->
        Py.re_match_pattern parts0 = true ->
        last (Py.split (Py.strip piece) (py "_")) = Some last_part ->
        Py.endswith last_part (py ".wav") = true ->
        exists r, process_line line = Ok (Some r))
  /\ forall line piece (second : str) more last_part,
       Py.startswith (Py.strip line) (py "REEL") = true ->
       Py.getitem (Py.split line (py "CLIP")) 1 = Ok piece ->
       Py.split (Py.strip piece) (py "_")
       = py "s02e12" :: second :: more ->
       second = py "0033-x.wav" \/ second = py "33-x.wav" ->
       last (Py.split (Py.strip piece) (py "_")) = Some last_part ->
       Py.endswith last_part (py ".wav") = true ->
       process_line line
       = Ok (Some (mkClip (Py.strip piece)
                          (py "e012s0033") (py "e012") (py "s02"))).
Proof.
  split; [|split].
  - intros line r last_part
      (piece & parts0 & shot0 & _ & _ & _ & _ & _ & _ & _ & Hmov & Hwav)
      %process_line_inv Hlast Hext.
    destruct (wav_shot_wav _ _ _ _ _ Hlast Hext Hwav)
      as (p1 & a & H1 & Ha & ->).
    pose proof (split_piece "-"%char p1 0 a Ha) as Hno.
    exists p1, a. repeat split; try done.
    intros Hplus. by rewrite zfill_no_hyphen.
  - intros line piece parts0 last_part Hreel Hp H0 Hre Hlast Hext.
    destruct (wav_line_record _ _ _ _ Hreel Hp H0 Hre Hlast Hext)
      as (ep & p1 & a & _ & _ & ->).
    eauto.
  - intros line piece second more last_part Hreel Hp Hparts Hsecond Hlast Hext.
    rewrite (process_line_run line piece (py "s02e12")); try done.
    + change (pad_episode (drop 3 (py "s02e12"))) with (Ok (py "e012")).
      cbn [mbind result_bind].
      assert (Py.endswith last_part (py ".mov") = false) as Hmov.
      { destruct (Py.endswith last_part (py ".mov")) eqn:E; [|done].
        apply endswith_mov_wav in E. congruence. }
      rewrite (mov_shot_other _ _ _ _ Hlast Hmov). cbn [mbind result_bind].
      unfold wav_shot. rewrite (getitem_last _ _ Hlast).
      cbn [mbind result_bind]. rewrite Hext, Hparts.
      by destruct Hsecond as [-> | ->].
    + by rewrite Hparts.
Qed.

Lemma wav_line_shot_witness :
  process_line (py "REEL 001 AX CLIP s02e12_33-x.wav" ++ [LF])
  = Ok (Some (mkClip (Py.strip (py " s02e12_33-x.wav" ++ [LF]))
                     (py "e012s0033") (py "e012") (py "s02"))).
Proof.
  apply (proj2 (proj2 wav_line_shot)
           (py "REEL 001 AX CLIP s02e12_33-x.wav" ++ [LF])
           (py " s02e12_33-x.wav" ++ [LF]) (py "33-x.wav") []
           (py "33-x.wav"));
    first [reflexivity | by right].
Defined.

(** ** C7: which lines yield records, and in which order *)

(** C7.  A line yields a record only if, trimmed, it starts with [REEL]
    and the first token of its clip name matches the pattern; a line
    that fails either test yields none.  A parse that returns leaves in
    [clip_data] the list it found followed by the records of the lines
    of the file, one for each line that yields one, in the order of the
    lines; in every case the records added are those of the lines up to
    some point of the file.  A line met twice gives its record twice. *)
Theorem records_in_line_order :
  (forall line r,
     line_record line = Some r ->
     Py.startswith (Py.strip line) (py "REEL") = true /\
     exists parts0 : str,
       Py.split (clip_name r) (py "_") !! 0 = Some parts0 /\
       Py.re_match_pattern parts0 = true)
  /\ (forall line,
        Py.startswith (Py.strip line) (py "REEL") = false ->
        process_line line = Ok None)
  /\ (forall line piece (parts0 : str),
        Py.getitem (Py.split line (py "CLIP")) 1 = Ok piece ->
        Py.split (Py.strip piece) (py "_") !! 0 = Some parts0 ->
        Py.re_match_pattern parts0 = false ->
        process_line line = Ok None)
  /\ (forall self content app,
        parse_edl_file self (Some content) = (Ok (), app) ->
        clip_data app = clip_data self ++ omap line_record (readlines content)
        /\ table_widget app = clip_data app)
  /\ (forall self content,
        exists n,
          clip_data (parse_edl_file self (Some content)).2
          = clip_data self ++ omap line_record (take n (readlines content)))
  /\ (forall data line r,
        line_record line = Some r ->
        for_lines [line; line] data = (Ok (), data ++ [r; r])).
Proof.
  split; [|split; [|split; [|split; [|split]]]].
  - intros line r Hrec. unfold line_record in Hrec.
    destruct (process_line line) as [[r'|]|] eqn:Hp; try done.
    injection Hrec as ->.
    destruct (process_line_inv _ _ Hp)
      as (piece & parts0 & _ & Hreel & _ & _ & H0 & Hre & _).
    split; [done|]. exists parts0. by apply getitem_Ok in H0.
  - intros line Hreel. unfold process_line. by rewrite Hreel.
  - intros line piece parts0 Hp H0 Hre. unfold process_line.
    destruct (Py.startswith _ _); [|done].
    rewrite Hp. cbn [mbind result_bind].
    apply getitem_Ok in H0. rewrite H0. cbn [mbind result_bind].
    by rewrite Hre.
  - intros self content app. unfold parse_edl_file, of_option.
    destruct (for_lines_prefix (readlines content) (clip_data self))
      as (n & Hn & _ & Hok).
    destruct (for_lines _ _) as [[[]|e] data]; [|done].
    simpl in *. intros [= <-]. simpl.
    by rewrite Hn, (Hok eq_refl), firstn_all.
  - intros self content. unfold parse_edl_file, of_option.
    destruct (for_lines_prefix (readlines content) (clip_data self))
      as (n & Hn & _).
    exists n. by destruct (for_lines _ _) as [[[]|e] data].
  - intros data line r Hrec. unfold line_record in Hrec. simpl.
    destruct (process_line line) as [[r'|]|]; try done.
    injection Hrec as ->. by rewrite <- app_assoc.
Qed.

Lemma records_in_line_order_witness :
  clip_data (mkApp [clip_wav; clip_mov] [clip_wav; clip_mov])
  = clip_data init ++ omap line_record (readlines (edl_wav ++ edl_mov))
  /\ table_widget (mkApp [clip_wav; clip_mov] [clip_wav; clip_mov])
     = clip_data (mkApp [clip_wav; clip_mov] [clip_wav; clip_mov]).
Proof.
  apply (proj1 (proj2 (proj2 (proj2 records_in_line_order)))
           init (edl_wav ++ edl_mov)).
  reflexivity.
Defined.

(** ** C8: the shot of a line of another extension *)

(** C8.  A line with the prefix and the marker whose clip name has an
    accepted first token and a last token that ends with neither [.mov]
    nor [.wav] yields a record, and the shot of the record is the empty
    string. *)
Theorem other_extension_empty_shot line piece (parts0 last_part : str) :
  Py.startswith (Py.strip line) (py "REEL") = true ->
  Py.getitem (Py.split line (py "CLIP")) 1 = Ok piece ->
  Py.split (Py.strip piece) (py "_") !! 0 = Some parts0 ->
  Py.re_match_pattern parts0 = true ->
  last (Py.split (Py.strip piece) (py "_")) = Some last_part ->
  Py.endswith last_part (py ".mov") = false ->
  Py.endswith last_part (py ".wav") = false ->
  exists r,
    process_line line = Ok (Some r) /\
    clip_name r = Py.strip piece /\
    shot r = [] /\
    pad_episode (drop 3 parts0) = Ok (episode r) /\
    season r = take 3 parts0.
Proof.
  intros Hreel Hp H0%getitem_Ok Hre Hlast Hmov Hwav.
  rewrite (process_line_run line piece parts0) by done.
  destruct (pad_episode_accepted parts0 Hre) as [ep Hep]. rewrite Hep.
  cbn [mbind result_bind].
  rewrite (mov_shot_other _ _ _ _ Hlast Hmov). cbn [mbind result_bind].
  rewrite (wav_shot_other _ _ _ _ Hlast Hwav). cbn [mbind result_bind].
  by eexists.
Qed.

Lemma other_extension_empty_shot_witness :
  exists r,
    process_line (py "REEL 001 CLIP s01e05_x CLIP y") = Ok (Some r) /\
    clip_name r = Py.strip (py " s01e05_x ") /\
    shot r = [] /\
    pad_episode (drop 3 (py "s01e05")) = Ok (episode r) /\
    season r = take 3 (py "s01e05").
Proof.
  apply (other_extension_empty_shot
           (py "REEL 001 CLIP s01e05_x CLIP y") (py " s01e05_x ")
           (py "s01e05") (py "x")); reflexivity.
Defined.


(** ** C9: the materializer only adds directories *)

(** C9 refuted as stated: for the two records of the file [edl_dots] the
    first run raises [FileExistsError] after it has made three
    directories, and the second run, on the state the first one left,
    makes three more. *)
Lemma second_run_adds_directories :
  parse_edl_file init (Some edl_dots)
  = (Ok (), mkApp [clip_dots; clip_mov] [clip_dots; clip_mov])
  /\ generate_folders (mkApp [clip_dots; clip_mov] []) fs_home
     = (Raise FileExistsError, fs_dots)
  /\ generate_folders (mkApp [clip_dots; clip_mov] []) fs_dots
     = (Ok (), fs_dots_again)
  /\ [py "home"; py "edl"; py "s01"] ∈ dirs fs_dots_again
  /\ [py "home"; py "edl"; py "s01"] ∉ dirs fs_dots.
Proof.
  split; [reflexivity|]. split; [evaluated|].
  split; [evaluated|]. split.
  - apply (bool_decide_eq_true_1
             ([py "home"; py "edl"; py "s01"] ∈ dirs fs_dots_again)).
    vm_compute. reflexivity.
  - apply (bool_decide_eq_false_1
             ([py "home"; py "edl"; py "s01"] ∈ dirs fs_dots)).
    vm_compute. reflexivity.
Qed.

(** C9, as amended.  [generate_folders] leaves every directory that was
    there and the working directory, also when it raises.  When it has
    returned and the paths it joined are shorter than [PATH_MAX], a
    second run on the state it left returns and leaves that state as it
    is.  For one record whose season and episode directories are there
    and whose shot is a plain name of at most [NAME_MAX] bytes, at the
    end of a path shorter than [PATH_MAX], it makes the shot directory
    under the episode directory and nothing else. *)
Theorem generate_folders_only_adds :
  (forall self fs, extends (generate_folders self fs).2 fs)
  /\ (forall self fs fs' base,
        Os.getcwd fs = Ok base ->
        Forall (paths_within base) (clip_data self) ->
        generate_folders self fs = (Ok (), fs') ->
        generate_folders self fs' = (Ok (), fs'))
  /\ (forall fs rows (name sh ep se base : str) loc,
        Os.getcwd fs = Ok base ->
        Os.path_exists fs (Os.path_join base se) = true ->
        Os.stat fs (Os.path_join (Os.path_join base se) ep) = Ok loc ->
        plain_name sh ->
        Os.fs_bytes sh <= Os.NAME_MAX ->
        Os.fs_bytes (Os.path_join (Os.path_join (Os.path_join base se) ep) sh)
        < Os.PATH_MAX ->
        generate_folders (mkApp [mkClip name sh ep se] rows) fs
        = (Ok (), mkFs ({[loc ++ [sh]]} ∪ dirs fs) (cwd fs))).
Proof.
  split; [|split].
  - intros self fs. unfold generate_folders.
    destruct (Os.getcwd fs); [apply for_records_extends|apply extends_refl].
  - intros self fs fs' base Hcwd Hall. unfold generate_folders.
    rewrite Hcwd. intros Hrun.
    pose proof (for_records_extends base (clip_data self) fs) as E.
    rewrite Hrun in E. simpl in E. rewrite (getcwd_extends _ _ _ E Hcwd).
    apply (for_records_again _ _ fs fs'); [done..|apply extends_refl].
  - intros fs rows name sh ep se base loc Hcwd Hse Hep Hsh Hshort Hlen.
    unfold generate_folders. rewrite Hcwd.
    simpl. unfold folders_of, io_seq. simpl.
    rewrite (make_unless_exists_noop _ _ Hse).
    rewrite make_unless_exists_noop
      by (apply path_exists_stat; eauto).
    by destruct (make_unless_exists_name fs _ loc sh Hep Hsh Hshort Hlen)
      as [-> _].
Qed.

Lemma generate_folders_only_adds_witness :
  generate_folders (mkApp [clip_mov; clip_wav] [])
    (generate_folders (mkApp [clip_mov; clip_wav] []) fs_home).2
  = (Ok (), (generate_folders (mkApp [clip_mov; clip_wav] []) fs_home).2).
Proof.
  apply (proj1 (proj2 generate_folders_only_adds)
           (mkApp [clip_mov; clip_wav] []) fs_home _ (py "/home/edl")).
  - evaluated.
  - short_paths.
  - evaluated.
Defined.

(** With [s01/e005] under the working directory, the record of a new
    shot [e005s0099] adds the one directory [s01/e005/e005s0099]. *)
Example new_shot_under_episode :
  let fs :=
    mkFs ({[ [py "home"; py "edl"; py "s01"; py "e005"];
             [py "home"; py "edl"; py "s01"] ]} ∪ dirs fs_home)
         (cwd fs_home) in
  generate_folders
    (mkApp [mkClip (py "s01e005_a_b_c_d-99.mov") (py "e005s0099")
                   (py "e005") (py "s01")] []) fs
  = (Ok (),
     mkFs ({[ [py "home"; py "edl"; py "s01"; py "e005"; py "e005s0099"] ]}
           ∪ dirs fs) (cwd fs)).
Proof. cbv zeta. evaluated. Qed.

(** ** C10: a record without shot *)

(** C10 refuted as stated: the path joined from the episode path and the
    empty shot is not the episode path; it has a separator more at its
    end. *)
Lemma empty_shot_path_ends_with_separator :
  process_line (py "REEL 001 CLIP s01e05_x CLIP y") = Ok (Some clip_noshot)
  /\ episode_directory (py "/home/edl") clip_noshot
     = py "/home/edl/s01/e005"
  /\ shot_directory (py "/home/edl") clip_noshot
     = py "/home/edl/s01/e005/"
  /\ shot_directory (py "/home/edl") clip_noshot
     <> episode_directory (py "/home/edl") clip_noshot.
Proof. repeat split; literal. Qed.

(** C10, as amended.  For the record of a line whose shot is the empty
    string, under a base directory that is there and with a joined path
    shorter than [PATH_MAX], the loop body makes the season directory
    and the episode directory under it, when they are not there yet,
    and nothing else, and raises nothing; so does [generate_folders]
    for that record under the working directory.  The path joined from
    the episode path and the empty shot is the episode path followed by
    a separator; it leads to the episode directory, which is there
    after the second step. *)
Theorem empty_shot_two_levels fs (base : str) loc line r :
  process_line line = Ok (Some r) ->
  shot r = [] ->
  Os.stat fs base = Ok loc ->
  Os.fs_bytes (shot_directory base r) < Os.PATH_MAX ->
  let fs' :=
    mkFs ({[loc ++ [season r; episode r]]}
          ∪ ({[loc ++ [season r]]} ∪ dirs fs)) (cwd fs) in
  folders_of base r fs = (Ok (), fs')
  /\ (Os.getcwd fs = Ok base ->
      forall rows, generate_folders (mkApp [r] rows) fs = (Ok (), fs'))
  /\ shot_directory base r = episode_directory base r ++ [SEP]
  /\ Os.stat fs' (episode_directory base r)
     = Ok (loc ++ [season r; episode r])
  /\ Os.stat fs' (shot_directory base r)
     = Os.stat fs' (episode_directory base r).
Proof.
  intros Hp Hshot Hbase Hlen. simpl.
  destruct (record_names_plain _ _ Hp) as [Hse Hep].
  destruct (record_names_short _ _ Hp) as [Sse Sep].
  unfold shot_directory, episode_directory, season_directory in *.
  rewrite Hshot in *.
  assert (base <> []) as Hb by (by apply stat_Ok_inv in Hbase as (_ & ? & _)).
  pose proof (plain_name_relative _ Hse) as Rse.
  pose proof (plain_name_relative _ Hep) as Rep.
  destruct (path_join_stat fs base (season r) Hb Rse) as (_ & _ & _ & Hsd).
  destruct (path_join_stat fs _ (episode r) Hsd Rep) as (_ & _ & _ & Hed).
  destruct (path_join_bytes base (season r) Hb Rse) as [B1 _].
  destruct (path_join_bytes _ (episode r) Hsd Rep) as [B2 _].
  destruct (path_join_bytes _ [] Hed eq_refl) as [B3 _].
  destruct (make_unless_exists_name fs base loc (season r) Hbase Hse Sse)
    as [H1 Hs1]; [lia|].
  destruct (make_unless_exists_name _ _ _ (episode r) Hs1 Hep Sep)
    as [H2 Hs2]; [lia|].
  simpl in H2, Hs2. rewrite <- app_assoc in H2, Hs2. simpl in H2, Hs2.
  assert (folders_of base r fs
          = (Ok (),
             mkFs ({[loc ++ [season r; episode r]]}
                   ∪ ({[loc ++ [season r]]} ∪ dirs fs)) (cwd fs))) as Hrun.
  { unfold folders_of, io_seq. rewrite H1, H2, Hshot.
    apply make_unless_exists_noop, path_exists_stat.
    rewrite path_join_empty by done. eauto. }
  split; [done|]. split; [|split; [|split; [done|]]].
  - intros Hcwd rows. unfold generate_folders. rewrite Hcwd. simpl.
    unfold io_seq. by rewrite Hrun.
  - rewrite path_join_nil by done.
    destruct (path_join_spec _ (episode r) Hsd Rep) as (q & -> & _).
    destruct Hep as (Hne & Hsep & _). by rewrite endswith_name.
  - by apply path_join_empty.
Qed.

Lemma empty_shot_two_levels_witness :
  let r := clip_noshot in
  let fs' :=
    mkFs ({[ [py "home"; py "edl"] ++ [season r; episode r] ]}
          ∪ ({[ [py "home"; py "edl"] ++ [season r] ]} ∪ dirs fs_home))
         (cwd fs_home) in
  folders_of (py "/home/edl") r fs_home = (Ok (), fs')
  /\ (Os.getcwd fs_home = Ok (py "/home/edl") ->
      forall rows, generate_folders (mkApp [r] rows) fs_home = (Ok (), fs'))
  /\ shot_directory (py "/home/edl") r
     = episode_directory (py "/home/edl") r ++ [SEP]
  /\ Os.stat fs' (episode_directory (py "/home/edl") r)
     = Ok ([py "home"; py "edl"] ++ [season r; episode r])
  /\ Os.stat fs' (shot_directory (py "/home/edl") r)
     = Os.stat fs' (episode_directory (py "/home/edl") r).
Proof.
  apply (empty_shot_two_levels fs_home (py "/home/edl")
           [py "home"; py "edl"] (py "REEL 001 CLIP s01e05_x CLIP y")
           clip_noshot); [reflexivity..|].
  by apply Nat.ltb_lt.
Defined.

(** * Further properties of the extractor *)

Section RaiseFacts.

Implicit Types (line episode : str) (parts : list str) (e : exn).

Lemma getitem_raises {A} (l : list A) i e :
  Py.getitem l i = Raise e -> e = IndexError.
Proof. unfold Py.getitem. destruct (l !! i); [done|]. by intros [= <-]. Qed.

Lemma bind_raises {A B} (m : result A) (k : A -> result B) e :
  m ≫= k = Raise e ->
  m = Raise e \/ exists a, m = Ok a /\ k a = Raise e.
Proof. destruct m as [a|e']; simpl; [eauto|]. intros [= <-]. by left. Qed.

Lemma pad_episode_raises episode e :
  pad_episode episode = Raise e -> e = IndexError.
Proof.
  unfold pad_episode. destruct (_ <=? _); [|done].
  intros [H|(a & _ & H)]%bind_raises; [by apply getitem_raises in H|done].
Qed.

Lemma mov_shot_raises parts episode (shot_before : str) e :
  mov_shot parts episode shot_before = Raise e -> e = IndexError.
Proof.
  unfold mov_shot.
  intros [H|(last_part & _ & H)]%bind_raises; [by apply getitem_raises in H|].
  destruct (Py.endswith _ _); [|done].
  apply bind_raises in H as [H|(p4 & _ & H)]; [by apply getitem_raises in H|].
  apply bind_raises in H as [H|(a & _ & H)]; [by apply getitem_raises in H|].
  apply bind_raises in H as [H|(b & _ & H)]; [by apply getitem_raises in H|].
  done.
Qed.

Lemma wav_shot_raises parts episode (shot_before : str) e :
  wav_shot parts episode shot_before = Raise e -> e = IndexError.
Proof.
  unfold wav_shot.
  intros [H|(last_part & _ & H)]%bind_raises; [by apply getitem_raises in H|].
  destruct (Py.endswith _ _); [|done].
  apply bind_raises in H as [H|(p1 & _ & H)]; [by apply getitem_raises in H|].
  apply bind_raises in H as [H|(a & _ & H)]; [by apply getitem_raises in H|].
  done.
Qed.

(** The loop body raises nothing but [IndexError]. *)
Lemma process_line_raises line e :
  process_line line = Raise e -> e = IndexError.
Proof.
  unfold process_line. destruct (Py.startswith _ _); [|done].
  intros [H|(piece & _ & H)]%bind_raises; [by apply getitem_raises in H|].
  apply bind_raises in H as [H|(parts0 & _ & H)];
    [by apply getitem_raises in H|].
  destruct (Py.re_match_pattern parts0); [|done].
  apply bind_raises in H as [H|(ep & _ & H)];
    [by apply pad_episode_raises in H|].
  apply bind_raises in H as [H|(sh & _ & H)];
    [by apply mov_shot_raises in H|].
  apply bind_raises in H as [H|(sh' & _ & H)];
    [by apply wav_shot_raises in H|].
  done.
Qed.

Lemma for_lines_raises (lines : list str) (data : list ClipRecord) e :
  (for_lines lines data).1 = Raise e -> e = IndexError.
Proof.
  revert data. induction lines as [|line lines IH]; intros data; simpl; [done|].
  destruct (process_line line) as [[r|]|e'] eqn:Hp; [apply IH..|].
  simpl. intros [= <-]. by apply process_line_raises in Hp.
Qed.

(** What leaves [parse_edl_file]: nothing, [IndexError], [IOError] for a
    file that cannot be opened, or [UnicodeDecodeError] for a file that
    is not text. *)
Lemma parse_edl_file_outcome self (file : opened) :
  (parse_edl_file self file).1 = Ok ()
  \/ (parse_edl_file self file).1 = Raise IndexError
  \/ ((parse_edl_file self file).1 = Raise IOError /\ file = Unreadable)
  \/ ((parse_edl_file self file).1 = Raise UnicodeDecodeError
      /\ exists before, file = Undecodable before).
Proof.
  destruct file as [|content|before]; simpl; [by right; right; left|..].
  - pose proof (for_lines_raises (readlines content) (clip_data self)) as H.
    destruct (for_lines _ _) as [[[]|e] data]; simpl in *; [by left|].
    right. left. by rewrite (H e eq_refl).
  - pose proof (for_lines_raises (complete_lines before) (clip_data self))
      as H.
    destruct (for_lines _ _) as [[[]|e] data]; simpl in *;
      [right; right; right; eauto|].
    right. left. by rewrite (H e eq_refl).
Qed.

(** The tuples there were stay in front, whatever the file. *)
Lemma parse_edl_file_keeps self (file : opened) :
  exists added,
    clip_data (parse_edl_file self file).2 = clip_data self ++ added.
Proof.
  destruct file as [|content|before]; simpl.
  - exists []. by rewrite app_nil_r.
  - rewrite (for_lines_append (readlines content)).
    destruct (for_lines (readlines content) []) as [[[]|e] data];
      by eexists.
  - rewrite (for_lines_append (complete_lines before)).
    destruct (for_lines (complete_lines before) []) as [[[]|e] data];
      by eexists.
Qed.

End RaiseFacts.

(** X1.  [open_file] does nothing for a name that does not end with
    [.edl], such as the empty name of a dismissed dialog.  For a name
    that does, the address bar shows the name whatever the parse does
    and the application object is the one the parse leaves.  Nothing
    leaves [open_file] but [IndexError], [IOError] for a file that
    cannot be opened and [UnicodeDecodeError] for a file that is not
    text: the handler of [FileNotFoundError] is never entered.  The
    records there were stay, in front. *)
Theorem open_file_outcome (files : str -> opened) filename w :
  (Py.endswith filename (py ".edl") = false ->
   open_file files filename w = (Ok (), w))
  /\ (Py.endswith filename (py ".edl") = true ->
      text_edit (open_file files filename w).2 = filename /\
      ((open_file files filename w).1,
       self_app (open_file files filename w).2)
      = parse_edl_file (self_app w) (files filename))
  /\ ((open_file files filename w).1 = Ok ()
      \/ (open_file files filename w).1 = Raise IndexError
      \/ ((open_file files filename w).1 = Raise IOError
          /\ files filename = Unreadable)
      \/ ((open_file files filename w).1 = Raise UnicodeDecodeError
          /\ exists before, files filename = Undecodable before))
  /\ exists added,
       clip_data (self_app (open_file files filename w).2)
       = clip_data (self_app w) ++ added.
Proof.
  unfold open_file.
  pose proof (parse_edl_file_outcome (self_app w) (files filename)) as Hout.
  pose proof (parse_edl_file_keeps (self_app w) (files filename)) as Hkeep.
  destruct (Py.endswith filename (py ".edl")).
  - destruct (parse_edl_file (self_app w) (files filename)) as [o a] eqn:Hp.
    assert ((match o with
             | Raise FileNotFoundError =>
                 (Raise FileNotFoundError, mkWindow a filename)
             | _ => (o, mkWindow a filename)
             end) = (o, mkWindow a filename)) as ->.
    { destruct o as [|[]]; done. }
    simpl in *. repeat split; done.
  - repeat split; try done; [by left|].
    exists []. by rewrite app_nil_r.
Qed.

Lemma open_file_outcome_witness :
  text_edit (open_file (fun _ => Undecodable edl_wav) (py "cut.edl")
               (mkWindow init [])).2 = py "cut.edl"
  /\ ((open_file (fun _ => Undecodable edl_wav) (py "cut.edl")
         (mkWindow init [])).1,
      self_app (open_file (fun _ => Undecodable edl_wav) (py "cut.edl")
                  (mkWindow init [])).2)
     = parse_edl_file (self_app (mkWindow init [])) (Undecodable edl_wav).
Proof.
  apply (proj1 (proj2 (open_file_outcome (fun _ => Undecodable edl_wav)
                         (py "cut.edl") (mkWindow init [])))).
  reflexivity.
Defined.

(** A file whose second part is not text: the line of the first part
    gives its record, and the parse ends with [UnicodeDecodeError],
    the table left as it was. *)
Example undecodable_after_first_line :
  parse_edl_file init (Undecodable (edl_wav ++ py "REEL 002 AX CLIP s0"))
  = (Raise UnicodeDecodeError, mkApp [clip_wav] []).
Proof. reflexivity. Qed.

(** X2.  A file without a line that, trimmed, starts with [REEL], an
    empty file among them, is parsed without exception: the records stay
    as they were and the table is filled from them. *)
Theorem no_reel_no_record self content :
  Forall (fun line => Py.startswith (Py.strip line) (py "REEL") = false)
         (readlines content) ->
  parse_edl_file self (Some content)
  = (Ok (), mkApp (clip_data self) (clip_data self)).
Proof.
  intros Hall. unfold parse_edl_file, of_option.
  assert (for_lines (readlines content) (clip_data self)
          = (Ok (), clip_data self)) as ->; [|done].
  induction Hall as [|line lines Hline _ IH]; simpl; [done|].
  unfold process_line. by rewrite Hline.
Qed.

Lemma no_reel_no_record_witness :
  parse_edl_file (mkApp [clip_wav] [])
    (Some (py "TITLE: cut 3" ++ [LF] ++ py "FCM: NON-DROP FRAME" ++ [LF]))
  = (Ok (), mkApp [clip_wav] [clip_wav]).
Proof.
  apply (no_reel_no_record (mkApp [clip_wav] [])).
  vm_compute. repeat constructor.
Defined.

(** X3.  A line with the prefix and the marker whose clip name has an
    accepted first token, a last token that ends with [.mov] and at
    least five tokens yields a record when the fifth token holds a
    hyphen, and raises [IndexError] when it holds none. *)
Theorem mov_line_needs_hyphen line piece (parts0 last_part p4 : str) :
  Py.startswith (Py.strip line) (py "REEL") = true ->
  Py.getitem (Py.split line (py "CLIP")) 1 = Ok piece ->
  Py.split (Py.strip piece) (py "_") !! 0 = Some parts0 ->
  Py.re_match_pattern parts0 = true ->
  last (Py.split (Py.strip piece) (py "_")) = Some last_part ->
  Py.endswith last_part (py ".mov") = true ->
  Py.split (Py.strip piece) (py "_") !! 4 = Some p4 ->
  (occurs (py "-") p4 -> exists r, process_line line = Ok (Some r))
  /\ (~ occurs (py "-") p4 -> process_line line = Raise IndexError).
Proof.
  intros Hreel Hp H0%getitem_Ok Hre Hlast Hmov H4%getitem_Ok.
  rewrite (process_line_run line piece parts0) by done.
  destruct (pad_episode_accepted parts0 Hre) as [ep ->].
  cbn [mbind result_bind]. unfold mov_shot.
  rewrite (getitem_last _ _ Hlast). cbn [mbind result_bind].
  rewrite Hmov, H4. cbn [mbind result_bind].
  destruct (split_cases p4 (py "-") ltac:(literal))
    as [[Hno ->]|(a & b & Hocc & ->)].
  - split; [done|]. intros _. reflexivity.
  - split; [|intros Hno; destruct Hno; destruct Hocc as [-> _]; by exists a, b].
    intros _.
    destruct (split_head b (py "-") ltac:(literal)) as (x & l & ->).
    destruct (split_head x (py ".") ltac:(literal)) as (y & l' & Hy).
    change (Py.getitem (a :: x :: l) 1) with (Ok x).
    cbn [mbind result_bind].
    assert (Py.getitem (Py.split x (py ".")) 0 = Ok y) as ->
      by (by rewrite Hy).
    cbn [mbind result_bind].
    rewrite (wav_shot_other _ _ _ _ Hlast (endswith_mov_wav _ Hmov)).
    cbn [mbind result_bind]. eauto.
Qed.

Lemma mov_line_needs_hyphen_witness :
  (occurs (py "-") (py "d.mov") ->
   exists r, process_line (py "REEL 1 CLIP s01e005_a_b_c_d.mov")
             = Ok (Some r))
  /\ (~ occurs (py "-") (py "d.mov") ->
      process_line (py "REEL 1 CLIP s01e005_a_b_c_d.mov")
      = Raise IndexError).
Proof.
  apply (mov_line_needs_hyphen (py "REEL 1 CLIP s01e005_a_b_c_d.mov")
           (py " s01e005_a_b_c_d.mov") (py "s01e005") (py "d.mov")
           (py "d.mov")); reflexivity.
Defined.

Section ShapeFacts.

Implicit Types (s t episode : str) (parts : list str) (r : ClipRecord).

Lemma zfill_length s width : width <= length (Py.zfill s width).
Proof.
  unfold Py.zfill. destruct (width <=? length s) eqn:E.
  - by apply Nat.leb_le.
  - apply Nat.leb_gt in E. destruct s as [|c s]; simpl in *.
    + rewrite length_replicate. lia.
    + destruct (_ || _); simpl; rewrite length_app, length_replicate;
        simpl; lia.
Qed.

Lemma lstrip_id s :
  (forall c s', s = c :: s' -> Py.isspace c = false) -> Py.lstrip s = s.
Proof.
  intros H. destruct s as [|c s]; [done|]. simpl.
  by rewrite (H c s eq_refl).
Qed.

(** Trimming what is trimmed changes nothing. *)
Lemma strip_strip s : Py.strip (Py.strip s) = Py.strip s.
Proof.
  set (t := Py.strip s).
  assert (Py.rstrip t = t) as Hr.
  { unfold Py.rstrip. rewrite lstrip_id; [apply rev_involutive|].
    intros c s' Hrev. apply (strip_last s (rev s') c).
    fold t. rewrite <- (rev_involutive t), Hrev. done. }
  unfold Py.strip at 1. rewrite Hr. apply lstrip_id.
  intros c s' Ht. unfold t, Py.strip in Ht. by apply lstrip_first in Ht.
Qed.

Lemma mov_shot_form parts episode sh :
  mov_shot parts episode [] = Ok sh ->
  sh = [] \/ exists t, sh = episode ++ py "s" ++ t /\ 4 <= length t.
Proof.
  unfold mov_shot.
  destruct (Py.getitem parts (length parts - 1)) as [last_part|];
    cbn [mbind result_bind]; [|done].
  destruct (Py.endswith _ _); [|intros [= <-]; by left].
  destruct (Py.getitem parts 4) as [p4|]; cbn [mbind result_bind]; [|done].
  destruct (Py.getitem (Py.split p4 _) 1) as [a|];
    cbn [mbind result_bind]; [|done].
  destruct (Py.getitem (Py.split a _) 0) as [b|];
    cbn [mbind result_bind]; [|done].
  intros [= <-]. right.
  eexists. split; [done|apply zfill_length].
Qed.

Lemma wav_shot_form parts episode (shot_before : str) sh :
  wav_shot parts episode shot_before = Ok sh ->
  sh = shot_before
  \/ exists t, sh = episode ++ py "s" ++ t /\ 4 <= length t.
Proof.
  unfold wav_shot.
  destruct (Py.getitem parts (length parts - 1)) as [last_part|];
    cbn [mbind result_bind]; [|done].
  destruct (Py.endswith _ _); [|intros [= <-]; by left].
  destruct (Py.getitem parts 1) as [p1|]; cbn [mbind result_bind]; [|done].
  destruct (Py.getitem (Py.split p1 _) 0) as [a|];
    cbn [mbind result_bind]; [|done].
  intros [= <-]. right.
  eexists. split; [done|apply zfill_length].
Qed.

End ShapeFacts.

(** X4.  Every record of a line of a file has a season made of the
    letter s and two digits and an episode made of the letter e and
    three digits; its shot is empty or is the episode, the letter s and
    at least four more characters; its clip name starts with the season
    and carries no white space at either end. *)
Theorem record_shape content line r :
  line ∈ readlines content ->
  process_line line = Ok (Some r) ->
  (exists d1 d2,
     season r = ["s"%char; d1; d2] /\
     Py.isdigit d1 = true /\ Py.isdigit d2 = true)
  /\ (exists n1 n2 n3,
        episode r = ["e"%char; n1; n2; n3] /\ Py.isdigit n1 = true /\
        Py.isdigit n2 = true /\ Py.isdigit n3 = true)
  /\ (shot r = []
      \/ exists t, shot r = episode r ++ py "s" ++ t /\ 4 <= length t)
  /\ Py.startswith (clip_name r) (season r) = true
  /\ Py.strip (clip_name r) = clip_name r.
Proof.
  intros Hline%readlines_newline Hp.
  destruct (process_line_inv _ _ Hp)
    as (piece & parts0 & shot0 & _ & _ & Hclip & H0 & _ & Hse & _
        & Hmov & Hwav).
  destruct (accepted_token_shape _ _ _ Hline Hp H0)
    as (d1 & d2 & digits & -> & H1 & H2 & Hd & Hlen & Hep).
  simpl in Hse. repeat split.
  - by exists d1, d2.
  - rewrite Hep, zfill_digits by done.
    destruct digits as [|d4 [|d5 [|d6 [|? ?]]]]; simpl in Hlen; try lia.
    + apply Forall_cons in Hd as [H4 [H5 _]%Forall_cons].
      by exists "0"%char, d4, d5.
    + apply Forall_cons in Hd as [H4 [H5 [H6 _]%Forall_cons]%Forall_cons].
      by exists d4, d5, d6.
  - apply mov_shot_form in Hmov. apply wav_shot_form in Hwav.
    destruct Hwav as [->|?]; [done|by right].
  - apply split_first in H0 as [->|[b ->]];
      [rewrite Hse|rewrite Hse|literal].
    + apply (startswith_app ("e"%char :: digits) ["s"%char; d1; d2]).
    + apply (startswith_app (("e"%char :: digits) ++ py "_" ++ b)
               ["s"%char; d1; d2]).
  - rewrite Hclip. apply strip_strip.
Qed.

Lemma record_shape_witness :
  (exists d1 d2,
     season clip_wav = ["s"%char; d1; d2] /\
     Py.isdigit d1 = true /\ Py.isdigit d2 = true)
  /\ (exists n1 n2 n3,
        episode clip_wav = ["e"%char; n1; n2; n3] /\ Py.isdigit n1 = true /\
        Py.isdigit n2 = true /\ Py.isdigit n3 = true)
  /\ (shot clip_wav = []
      \/ exists t, shot clip_wav = episode clip_wav ++ py "s" ++ t
                   /\ 4 <= length t)
  /\ Py.startswith (clip_name clip_wav) (season clip_wav) = true
  /\ Py.strip (clip_name clip_wav) = clip_name clip_wav.
Proof.
  apply (record_shape edl_wav
           (py "REEL 001 AX CLIP s02e12_0033-x.wav" ++ [LF]) clip_wav).
  - vm_compute. left.
  - reflexivity.
Defined.

Section LineEndFacts.

Implicit Types (l cur rest : str) (lines : list str).

Lemma one_line_check l :
  forallb (fun c => negb (Ascii.eqb c LF) && negb (Ascii.eqb c CR)) l = true ->
  one_line l.
Proof.
  rewrite forallb_forall. intros H.
  split; intros Hin%list_elem_of_In%H; done.
Qed.

Lemma readlines_from_lf cur l rest :
  one_line l ->
  readlines_from cur (l ++ LF :: rest)
  = (rev cur ++ l ++ [LF]) :: readlines_from [] rest.
Proof.
  revert cur. induction l as [|c l IH]; intros cur [Hlf Hcr]; simpl.
  - done.
  - apply not_elem_of_cons in Hlf as [Hc Hlf].
    apply not_elem_of_cons in Hcr as [Hc' Hcr].
    rewrite (proj2 (Ascii.eqb_neq c LF)) by done.
    rewrite (proj2 (Ascii.eqb_neq c CR)) by done.
    rewrite IH by done. simpl. by rewrite <- app_assoc.
Qed.

Lemma readlines_from_crlf cur l rest :
  one_line l ->
  readlines_from cur (l ++ CR :: LF :: rest)
  = (rev cur ++ l ++ [LF]) :: readlines_from [] rest.
Proof.
  revert cur. induction l as [|c l IH]; intros cur [Hlf Hcr]; simpl.
  - done.
  - apply not_elem_of_cons in Hlf as [Hc Hlf].
    apply not_elem_of_cons in Hcr as [Hc' Hcr].
    rewrite (proj2 (Ascii.eqb_neq c LF)) by done.
    rewrite (proj2 (Ascii.eqb_neq c CR)) by done.
    rewrite IH by done. simpl. by rewrite <- app_assoc.
Qed.

Lemma readlines_from_cr cur l rest :
  one_line l ->
  (forall rest', rest <> LF :: rest') ->
  readlines_from cur (l ++ CR :: rest)
  = (rev cur ++ l ++ [LF]) :: readlines_from [] rest.
Proof.
  revert cur. induction l as [|c l IH]; intros cur [Hlf Hcr] Hrest; simpl.
  - destruct rest as [|c' rest']; [done|].
    destruct (Ascii.eqb c' LF) eqn:E; [|done].
    apply ascii_eqb_true in E as ->. by destruct (Hrest rest').
  - apply not_elem_of_cons in Hlf as [Hc Hlf].
    apply not_elem_of_cons in Hcr as [Hc' Hcr].
    rewrite (proj2 (Ascii.eqb_neq c LF)) by done.
    rewrite (proj2 (Ascii.eqb_neq c CR)) by done.
    rewrite IH by done. simpl. by rewrite <- app_assoc.
Qed.

Lemma readlines_unix lines :
  Forall one_line lines ->
  readlines (concat (map (fun l => l ++ [LF]) lines))
  = map (fun l => l ++ [LF]) lines.
Proof.
  unfold readlines. induction 1 as [|l lines Hl _ IH]; simpl; [done|].
  rewrite <- app_assoc. simpl. rewrite readlines_from_lf by done.
  by rewrite IH.
Qed.

Lemma readlines_dos lines :
  Forall one_line lines ->
  readlines (concat (map (fun l => l ++ [CR; LF]) lines))
  = map (fun l => l ++ [LF]) lines.
Proof.
  unfold readlines. induction 1 as [|l lines Hl _ IH]; simpl; [done|].
  rewrite <- app_assoc. simpl. rewrite readlines_from_crlf by done.
  by rewrite IH.
Qed.

Lemma readlines_mac lines :
  Forall one_line lines ->
  readlines (concat (map (fun l => l ++ [CR]) lines))
  = map (fun l => l ++ [LF]) lines.
Proof.
  unfold readlines. induction 1 as [|l lines Hl Hall IH]; simpl; [done|].
  rewrite <- app_assoc. simpl. rewrite readlines_from_cr; [by rewrite IH|done|].
  intros rest' Heq. destruct Hall as [|l' lines' [Hlf _] _]; [done|].
  simpl in Heq. destruct l' as [|c l']; [done|].
  injection Heq as -> _. destruct Hlf. left.
Qed.

End LineEndFacts.

(** X5.  The way the lines of a file end does not matter: with LF, with
    CR LF or with CR after each line, the loop sees the same lines, each
    ended by LF, and [parse_edl_file] does the same. *)
Theorem line_ends_agree lines :
  Forall one_line lines ->
  readlines (concat (map (fun l => l ++ [LF]) lines))
  = map (fun l => l ++ [LF]) lines
  /\ forall self,
       parse_edl_file self (Some (concat (map (fun l => l ++ [CR; LF]) lines)))
       = parse_edl_file self (Some (concat (map (fun l => l ++ [LF]) lines)))
       /\ parse_edl_file self (Some (concat (map (fun l => l ++ [CR]) lines)))
          = parse_edl_file self
              (Some (concat (map (fun l => l ++ [LF]) lines))).
Proof.
  intros Hall. split; [by apply readlines_unix|].
  intros self. unfold parse_edl_file, of_option.
  by rewrite readlines_unix, readlines_dos, readlines_mac.
Qed.

Lemma line_ends_agree_witness :
  readlines (concat (map (fun l => l ++ [LF])
                       [py "TITLE: cut"; py "REEL 001 AX CLIP s02e12_0033-x.wav"]))
  = map (fun l => l ++ [LF])
        [py "TITLE: cut"; py "REEL 001 AX CLIP s02e12_0033-x.wav"]
  /\ forall self,
       parse_edl_file self
         (Some (concat (map (fun l => l ++ [CR; LF])
                  [py "TITLE: cut"; py "REEL 001 AX CLIP s02e12_0033-x.wav"])))
       = parse_edl_file self
           (Some (concat (map (fun l => l ++ [LF])
                    [py "TITLE: cut"; py "REEL 001 AX CLIP s02e12_0033-x.wav"])))
       /\ parse_edl_file self
            (Some (concat (map (fun l => l ++ [CR])
                     [py "TITLE: cut"; py "REEL 001 AX CLIP s02e12_0033-x.wav"])))
          = parse_edl_file self
              (Some (concat (map (fun l => l ++ [LF])
                       [py "TITLE: cut"; py "REEL 001 AX CLIP s02e12_0033-x.wav"]))).
Proof.
  apply (line_ends_agree
           [py "TITLE: cut"; py "REEL 001 AX CLIP s02e12_0033-x.wav"]).
  repeat (constructor; [by apply one_line_check|]). constructor.
Defined.

(** * Properties of the table *)

Section TableFacts.

Implicit Types (t : Table) (row col i j : nat) (item : str).
Implicit Types (data : list str) (cd : list ClipRecord).

Lemma setItem_counts row col item t :
  row_count (setItem row col item t) = row_count t
  /\ column_count (setItem row col item t) = column_count t.
Proof. unfold setItem. by destruct (_ && _). Qed.

Lemma setItem_lookup row col item t i j :
  items (setItem row col item t) !! (i, j)
  = if bool_decide (i = row /\ j = col /\ row < row_count t
                    /\ col < column_count t)
    then Some item
    else items t !! (i, j).
Proof.
  unfold setItem.
  destruct (Nat.ltb_spec row (row_count t)) as [Hr|Hr];
    destruct (Nat.ltb_spec col (column_count t)) as [Hc|Hc];
    cbn [andb items]; case_bool_decide as Hd;
    try (destruct Hd as (? & ? & ? & ?); lia); try done.
  - destruct Hd as (-> & -> & _). by rewrite lookup_insert_eq.
  - rewrite lookup_insert_ne; [done|]. intros [= <- <-]. by apply Hd.
Qed.

Lemma set_columns_counts row col data t :
  row_count (set_columns row col data t) = row_count t
  /\ column_count (set_columns row col data t) = column_count t.
Proof.
  revert col t. induction data as [|item data IH]; intros col t; simpl; [done|].
  destruct (IH (S col) (setItem row col item t)) as [-> ->].
  apply setItem_counts.
Qed.

(** The items after one row is set from the column [col] on. *)
Lemma set_columns_lookup row col data t i j :
  items (set_columns row col data t) !! (i, j)
  = if bool_decide (i = row /\ row < row_count t /\ col <= j
                    /\ j < column_count t /\ j < col + length data)
    then data !! (j - col)
    else items t !! (i, j).
Proof.
  revert col t. induction data as [|item data IH]; intros col t; simpl.
  - case_bool_decide as Hd; [lia|done].
  - rewrite IH, setItem_lookup.
    destruct (setItem_counts row col item t) as [-> ->].
    repeat case_bool_decide; try lia.
    + replace (j - col) with (S (j - S col)) by lia. done.
    + replace (j - col) with 0 by lia. done.
    + done.
Qed.

Lemma set_rows_counts row cd t :
  row_count (set_rows row cd t) = row_count t
  /\ column_count (set_rows row cd t) = column_count t.
Proof.
  revert row t.
  induction cd as [|r cd IH]; intros row t; cbn [set_rows]; [done|].
  destruct (IH (S row) (set_columns row 0 (fields r) t)) as [-> ->].
  apply set_columns_counts.
Qed.

(** The items after the rows are set from the row [row] on. *)
Lemma set_rows_lookup row cd t i j :
  items (set_rows row cd t) !! (i, j)
  = if bool_decide (row <= i /\ i < row + length cd /\ i < row_count t
                    /\ j < column_count t /\ j < 4)
    then cd !! (i - row) ≫= fun r => fields r !! j
    else items t !! (i, j).
Proof.
  revert row t.
  induction cd as [|r cd IH]; intros row t; cbn [set_rows length].
  - case_bool_decide as Hd; [lia|done].
  - rewrite IH, set_columns_lookup.
    destruct (set_columns_counts row 0 (fields r) t) as [-> ->].
    change (length (fields r)) with 4.
    repeat case_bool_decide; try lia.
    + replace (i - row) with (S (i - S row)) by lia. done.
    + replace (i - row) with 0 by lia. simpl. f_equal. lia.
    + done.
Qed.

Lemma setRowCount_lookup n t i j :
  items (setRowCount n t) !! (i, j)
  = if bool_decide (i < n) then items t !! (i, j) else None.
Proof.
  unfold setRowCount. simpl. case_bool_decide as Hd.
  - destruct (items t !! (i, j)) as [item|] eqn:Hl.
    + by apply map_lookup_filter_Some.
    + apply map_lookup_filter_None. by left.
  - apply map_lookup_filter_None. right. intros item _. done.
Qed.

End TableFacts.

(** X6.  On a table of four columns, [load_edl_data] leaves as many rows
    as there are records, and the item of row [i] and column [j] is the
    field [j] of the record [i], in the order clip, shot, episode,
    season of the headers; nothing else is in the table, whatever it
    showed before. *)
Theorem load_edl_table_items cd t :
  table_ok t ->
  column_count t = 4 ->
  row_count (load_edl_table cd t) = length cd
  /\ column_count (load_edl_table cd t) = 4
  /\ (forall i j,
        items (load_edl_table cd t) !! (i, j)
        = cd !! i ≫= fun r => fields r !! j)
  /\ table_ok (load_edl_table cd t).
Proof.
  intros Hok Hcols. unfold load_edl_table.
  destruct (set_rows_counts 0 cd (setRowCount (length cd) t)) as [Hr Hc].
  simpl in Hr, Hc.
  assert (forall i j,
    items (set_rows 0 cd (setRowCount (length cd) t)) !! (i, j)
    = cd !! i ≫= fun r => fields r !! j) as Hitems.
  { intros i j. rewrite set_rows_lookup, setRowCount_lookup. simpl.
    rewrite Hcols, Nat.sub_0_r.
    case_bool_decide as Hd; [done|].
    destruct (cd !! i) as [r|] eqn:Hi; simpl.
    - apply lookup_lt_Some in Hi.
      rewrite bool_decide_eq_true_2 by done.
      assert (4 <= j) as Hj by lia.
      rewrite (lookup_ge_None_2 (fields r)) by done.
      destruct (items t !! (i, j)) as [item|] eqn:Hl; [|done].
      apply Hok in Hl. lia.
    - apply lookup_ge_None in Hi. by rewrite bool_decide_eq_false_2 by lia. }
  repeat split; [done|congruence|done|..];
    rewrite Hitems in H; destruct (cd !! row) as [r|] eqn:Hi; try done;
    simpl in H.
  - rewrite Hr. by apply lookup_lt_Some in Hi.
  - rewrite Hc, Hcols. by apply lookup_lt_Some in H.
Qed.

Lemma load_edl_table_items_witness :
  row_count (load_edl_table [clip_wav; clip_mov] new_table) = 2
  /\ column_count (load_edl_table [clip_wav; clip_mov] new_table) = 4
  /\ (forall i j,
        items (load_edl_table [clip_wav; clip_mov] new_table) !! (i, j)
        = [clip_wav; clip_mov] !! i ≫= fun r => fields r !! j)
  /\ table_ok (load_edl_table [clip_wav; clip_mov] new_table).
Proof.
  apply (load_edl_table_items [clip_wav; clip_mov] new_table).
  - intros row col item H. done.
  - reflexivity.
Defined.

(** * Further properties of the materializer *)

Section TreeFacts.

Implicit Types (fs : filesystem) (loc : list str) (r : ClipRecord).
Implicit Types (a base name : str) (records : list ClipRecord).

(** The split [os.makedirs] makes of a path joined from a directory that
    is there and one more name. *)
Lemma split_name_join fs a loc name :
  Os.stat fs a = Ok loc -> name <> [] -> SEP ∉ name ->
  exists head,
    Os.split_name (Os.path_join a name) = (head, name)
    /\ head <> [] /\ Os.stat fs head = Ok loc.
Proof.
  intros Hstat Hne Hsep.
  destruct (stat_Ok_inv _ _ _ Hstat) as (Hnula & Ha & Hw).
  pose proof (stat_Ok_bytes _ _ _ Hstat) as Hla.
  assert (Py.startswith name [SEP] = false) as Hrel.
  { destruct name as [|c name]; [done|]. simpl. rewrite andb_true_r.
    destruct (Ascii.eqb c SEP) eqn:E; [|done].
    apply ascii_eqb_true in E as ->. destruct Hsep. left. }
  destruct (path_join_spec a name Ha Hrel)
    as (q & Hq & (seps & Hseps & Hall) & Hq').
  exists (Os.trim_head q). unfold Os.split_name.
  rewrite Hq, path_split_app by (done || by right).
  destruct (trim_head_spec q) as (seps' & Htrim & Hall' & Hqne).
  assert (q <> []) as Hqn by (destruct Hq' as [q' ->]; by destruct q').
  specialize (Hqne Hqn).
  split; [by destruct name|]. split; [done|].
  rewrite <- Hstat. apply stat_congr; try done.
  - assert (NUL ∈ q <-> NUL ∈ a) as Hqa.
    { rewrite Hseps, elem_of_app. split; [|tauto].
      intros [?|Hin]; [done|]. by apply (elem_of_seps _ _ Hall) in Hin. }
    rewrite <- Hqa. rewrite Htrim at 2. rewrite elem_of_app.
    split; [tauto|]. intros [?|Hin]; [done|].
    by apply (elem_of_seps _ _ Hall') in Hin.
  - transitivity (Py.startswith q [SEP]).
    + rewrite Htrim at 2. symmetry. by apply startswith_prefix.
    + rewrite Hseps. by apply startswith_prefix.
  - transitivity (Os.components q).
    + rewrite Htrim at 2. symmetry. by apply components_seps_r.
    + rewrite Hseps. by apply components_seps_r.
  - pose proof (trim_head_join_bytes a name q Ha Hrel Hq). lia.
Qed.

(** A name that holds NUL is refused, and nothing is made. *)
Lemma make_unless_exists_nul fs a loc name :
  Os.stat fs a = Ok loc -> SEP ∉ name -> NUL ∈ name ->
  make_unless_exists (Os.path_join a name) fs = (Raise ValueError, fs).
Proof.
  intros Hstat Hsep Hnul.
  assert (name <> []) as Hne by (intros ->; by apply elem_of_nil in Hnul).
  destruct (split_name_join fs a loc name Hstat Hne Hsep)
    as (head & Hsplit & Hhead & Hst).
  assert (NUL ∈ Os.path_join a name) as Hin.
  { unfold Os.path_join. destruct (Py.startswith name [SEP]); [done|].
    destruct a; [done|]. destruct (Py.endswith _ _);
      rewrite !elem_of_app; tauto. }
  assert (forall fs', Os.mkdir (Os.path_join a name) fs'
                      = (Raise ValueError, fs')) as Hmk.
  { intros fs'. unfold Os.mkdir. by rewrite bool_decide_eq_true_2. }
  unfold make_unless_exists, Os.path_exists, Os.stat.
  rewrite bool_decide_eq_true_2 by done. simpl.
  unfold Os.makedirs. cbn [Os.makedirs_at]. rewrite Hsplit.
  destruct head as [|c h]; [done|]. destruct name as [|c' n]; [done|].
  unfold Os.path_exists. rewrite Hst. apply Hmk.
Qed.

(** The shot of a record that has one holds the letter s. *)
Lemma shot_holds_s line r :
  process_line line = Ok (Some r) -> shot r <> [] -> "s"%char ∈ shot r.
Proof.
  intros (piece & parts0 & shot0 & _ & _ & _ & _ & _ & _ & _ & Hmov & Hwav)
    %process_line_inv Hne.
  apply mov_shot_form in Hmov. apply wav_shot_form in Hwav.
  assert (exists t, shot r = episode r ++ py "s" ++ t) as [t ->].
  { destruct Hwav as [Hw|(t & Ht & _)]; [|by eauto].
    destruct Hmov as [Hm|(t & Ht & _)]; [congruence|].
    exists t. congruence. }
  rewrite !elem_of_app. right. left. left.
Qed.

(** The first two steps of the loop body for the record of a line,
    under a base directory that is there. *)
Lemma season_episode_made fs base loc line r :
  process_line line = Ok (Some r) ->
  Os.stat fs base = Ok loc ->
  Os.fs_bytes (episode_directory base r) < Os.PATH_MAX ->
  let fs1 := mkFs ({[loc ++ [season r]]} ∪ dirs fs) (cwd fs) in
  let fs2 :=
    mkFs ({[loc ++ [season r; episode r]]}
          ∪ ({[loc ++ [season r]]} ∪ dirs fs)) (cwd fs) in
  make_unless_exists (season_directory base r) fs = (Ok (), fs1)
  /\ make_unless_exists (episode_directory base r) fs1 = (Ok (), fs2)
  /\ Os.stat fs2 (episode_directory base r)
     = Ok (loc ++ [season r; episode r]).
Proof.
  intros Hp Hbase Hlen. simpl.
  destruct (record_names_plain _ _ Hp) as [Hse Hep].
  destruct (record_names_short _ _ Hp) as [Sse Sep].
  unfold episode_directory, season_directory in *.
  assert (base <> []) as Hb by (by apply stat_Ok_inv in Hbase as (_ & ? & _)).
  pose proof (plain_name_relative _ Hse) as Rse.
  pose proof (plain_name_relative _ Hep) as Rep.
  destruct (path_join_stat fs base (season r) Hb Rse) as (_ & _ & _ & Hsd).
  destruct (path_join_bytes _ (episode r) Hsd Rep) as [B2 _].
  destruct (make_unless_exists_name fs base loc (season r) Hbase Hse Sse)
    as [H1 Hs1]; [lia|].
  destruct (make_unless_exists_name _ _ _ (episode r) Hs1 Hep Sep)
    as [H2 Hs2]; [lia|].
  simpl in H2, Hs2. rewrite <- app_assoc in H2, Hs2. simpl in H2, Hs2.
  done.
Qed.

End TreeFacts.

(** X7.  For the record of a line whose shot is not empty, holds
    neither a separator nor NUL and has at most [NAME_MAX] bytes, under
    a base directory that is there and with a joined path shorter than
    [PATH_MAX], the loop body of [generate_folders] returns and leaves
    the tree of three levels: the season directory under the base, the
    episode directory under it and the shot directory under that,
    beside what was there. *)
Theorem folders_of_three_levels fs (base : str) loc line r :
  process_line line = Ok (Some r) ->
  Os.stat fs base = Ok loc ->
  shot r <> [] -> SEP ∉ shot r -> NUL ∉ shot r ->
  Os.fs_bytes (shot r) <= Os.NAME_MAX ->
  Os.fs_bytes (shot_directory base r) < Os.PATH_MAX ->
  folders_of base r fs
  = (Ok (),
     mkFs ({[loc ++ [season r; episode r; shot r]]}
           ∪ ({[loc ++ [season r; episode r]]}
              ∪ ({[loc ++ [season r]]} ∪ dirs fs))) (cwd fs)).
Proof.
  intros Hp Hbase Hne Hsep Hnul Hshort Hlen.
  assert (plain_name (shot r)) as Hsh.
  { pose proof (shot_holds_s _ _ Hp Hne) as Hs.
    repeat split; try done; intros Heq; rewrite Heq in Hs;
      repeat (apply elem_of_cons in Hs as [Hs|Hs]; [discriminate|]);
      by apply elem_of_nil in Hs. }
  pose proof (plain_name_relative _ Hsh) as Rsh.
  assert (Os.fs_bytes (episode_directory base r) < Os.PATH_MAX) as Hle.
  { unfold shot_directory in Hlen.
    destruct (decide (episode_directory base r = [])) as [->|Hed];
      [by unfold Os.PATH_MAX; simpl; lia|].
    destruct (path_join_bytes _ (shot r) Hed Rsh) as [B _]. lia. }
  destruct (season_episode_made fs base loc line r Hp Hbase Hle)
    as (H1 & H2 & Hs2).
  destruct (make_unless_exists_name _ _ _ (shot r) Hs2 Hsh Hshort Hlen)
    as [H3 _].
  simpl in H3. rewrite <- ?app_assoc in H3. simpl in H3.
  unfold folders_of, io_seq.
  fold (season_directory base r). fold (episode_directory base r).
  by rewrite H1, H2, H3.
Qed.

Lemma folders_of_three_levels_witness :
  folders_of (py "/home/edl") clip_wav fs_home
  = (Ok (),
     mkFs ({[ [py "home"; py "edl"]
              ++ [season clip_wav; episode clip_wav; shot clip_wav] ]}
           ∪ ({[ [py "home"; py "edl"]
                 ++ [season clip_wav; episode clip_wav] ]}
              ∪ ({[ [py "home"; py "edl"] ++ [season clip_wav] ]}
                 ∪ dirs fs_home))) (cwd fs_home)).
Proof.
  apply (folders_of_three_levels fs_home (py "/home/edl")
           [py "home"; py "edl"]
           (py "REEL 001 AX CLIP s02e12_0033-x.wav" ++ [LF]) clip_wav).
  - reflexivity.
  - reflexivity.
  - discriminate.
  - by apply (bool_decide_eq_false_1 (SEP ∈ shot clip_wav)).
  - by apply (bool_decide_eq_false_1 (NUL ∈ shot clip_wav)).
  - by apply Nat.leb_le.
  - by apply Nat.ltb_lt.
Defined.

(** X8.  For the record of a line whose shot holds NUL and no separator,
    under a base directory that is there and with an episode path
    shorter than [PATH_MAX], the loop body raises [ValueError] after it
    has made the season and the episode directories, which stay; the
    loop ends there, and the records after this one are left without
    directories. *)
Theorem nul_shot_stops_generation fs (base : str) loc line r :
  process_line line = Ok (Some r) ->
  Os.stat fs base = Ok loc ->
  NUL ∈ shot r -> SEP ∉ shot r ->
  Os.fs_bytes (episode_directory base r) < Os.PATH_MAX ->
  forall records,
    for_records base (r :: records) fs
    = (Raise ValueError,
       mkFs ({[loc ++ [season r; episode r]]}
             ∪ ({[loc ++ [season r]]} ∪ dirs fs)) (cwd fs)).
Proof.
  intros Hp Hbase Hnul Hsep Hlen records.
  destruct (season_episode_made fs base loc line r Hp Hbase Hlen)
    as (H1 & H2 & Hs2).
  pose proof (make_unless_exists_nul _ _ _ (shot r) Hs2 Hsep Hnul) as H3.
  simpl. unfold folders_of, io_seq.
  fold (season_directory base r). fold (episode_directory base r).
  by rewrite H1, H2, H3.
Qed.

Lemma nul_shot_stops_generation_witness :
  for_records (py "/home/edl")
    (mkClip (py "s02e12_a" ++ [NUL] ++ py "-x.wav")
            (py "e012s00a" ++ [NUL]) (py "e012") (py "s02") :: [clip_mov])
    fs_home
  = (Raise ValueError,
     mkFs ({[ [py "home"; py "edl"] ++ [py "s02"; py "e012"] ]}
           ∪ ({[ [py "home"; py "edl"] ++ [py "s02"] ]} ∪ dirs fs_home))
          (cwd fs_home)).
Proof.
  refine (nul_shot_stops_generation fs_home (py "/home/edl")
            [py "home"; py "edl"]
            (py "REEL 1 CLIP s02e12_a" ++ [NUL] ++ py "-x.wav")
            (mkClip (py "s02e12_a" ++ [NUL] ++ py "-x.wav")
                    (py "e012s00a" ++ [NUL]) (py "e012") (py "s02"))
            _ _ _ _ _ [clip_mov]).
  - reflexivity.
  - reflexivity.
  - by apply (bool_decide_eq_true_1 (NUL ∈ py "e012s00a" ++ [NUL])).
  - by apply (bool_decide_eq_false_1 (SEP ∈ py "e012s00a" ++ [NUL])).
  - by apply Nat.ltb_lt.
Defined.

Section RepeatFacts.

Implicit Types (fs : filesystem) (r : ClipRecord).
Implicit Types (base : str) (records : list ClipRecord).

(** The loop over two lists, one after the other. *)
Lemma for_records_app base records1 records2 fs :
  for_records base (records1 ++ records2) fs
  = io_seq (for_records base records1) (for_records base records2) fs.
Proof.
  revert fs. induction records1 as [|r records1 IH]; intros fs.
  - done.
  - cbn [for_records app]. unfold io_seq.
    destruct (folders_of base r fs) as [[[]|e] fs1]; [|done].
    by rewrite IH.
Qed.

(** After a loop that returned, the body does nothing for a tuple of
    the list whose paths are not too long. *)
Lemma for_records_member base records fs fs' r :
  for_records base records fs = (Ok (), fs') -> r ∈ records ->
  paths_within base r ->
  folders_of base r fs' = (Ok (), fs').
Proof.
  revert fs. induction records as [|r0 records IH]; intros fs Hrun Hin Hr.
  - by apply elem_of_nil in Hin.
  - cbn [for_records] in Hrun.
    apply io_seq_Ok in Hrun as (fs1 & H1 & H2).
    apply elem_of_cons in Hin as [->|Hin]; [|by apply (IH fs1)].
    apply (folders_of_again _ _ _ _ _ H1 Hr).
    pose proof (for_records_extends base records fs1) as E.
    by rewrite H2 in E.
Qed.

Lemma for_records_members base records records2 fs fs' :
  for_records base records fs = (Ok (), fs') ->
  (forall r, r ∈ records2 -> r ∈ records) ->
  Forall (paths_within base) records2 ->
  for_records base records2 fs' = (Ok (), fs').
Proof.
  intros Hrun Hsub Hall.
  induction Hall as [|r records2 Hr _ IH]; [done|].
  cbn [for_records]. unfold io_seq.
  rewrite (for_records_member _ _ _ _ r Hrun) by (done || apply Hsub; left).
  apply IH. intros r' Hr'. apply Hsub. by right.
Qed.

End RepeatFacts.

(** A path too long for the kernel that ends with a dot: the first run
    makes the directories above the dot and returns, for [os.makedirs]
    makes nothing for a last name that is a dot; the path still does
    not exist, and the second run raises [OSError]. *)
Example long_path_made_once :
  process_line line_long = Ok (Some clip_long)
  /\ for_records (py "/home/edl") [clip_long] fs_home = (Ok (), fs_long)
  /\ for_records (py "/home/edl") [clip_long] fs_long
     = (Raise OSError, fs_long).
Proof. split; [evaluated|]. split; evaluated. Qed.

(** X9.  When the loop of [generate_folders] over a list of tuples has
    returned, the loop over that list followed by any tuples that occur
    in it, and whose joined paths are shorter than [PATH_MAX], returns
    with the same directories: tuples met again on the way make nothing
    and raise nothing. *)
Theorem repeated_records_add_nothing (base : str) records records2 fs fs' :
  for_records base records fs = (Ok (), fs') ->
  (forall r, r ∈ records2 -> r ∈ records) ->
  Forall (paths_within base) records2 ->
  for_records base (records ++ records2) fs = (Ok (), fs').
Proof.
  intros Hrun Hsub Hall. rewrite for_records_app. unfold io_seq. rewrite Hrun.
  by apply (for_records_members base records records2 fs).
Qed.

Lemma repeated_records_add_nothing_witness :
  for_records (py "/home/edl") ([clip_wav; clip_mov] ++ [clip_mov; clip_wav])
    fs_home
  = (Ok (), (for_records (py "/home/edl") [clip_wav; clip_mov] fs_home).2).
Proof.
  apply (repeated_records_add_nothing (py "/home/edl") [clip_wav; clip_mov]
           [clip_mov; clip_wav] fs_home).
  - evaluated.
  - intros r Hr. rewrite !elem_of_cons in Hr. rewrite !elem_of_cons. tauto.
  - short_paths.
Defined.

(** X10.  A file that was read without an exception is read again
    without one, and the list then holds its tuples twice; when
    [generate_folders] returned after the first reading, with joined
    paths shorter than [PATH_MAX], it returns after the second one with
    the same directories. *)
Theorem reopened_file_same_tree self content a1 fs fs' :
  parse_edl_file self (Some content) = (Ok (), a1) ->
  generate_folders a1 fs = (Ok (), fs') ->
  (forall base, Os.getcwd fs = Ok base ->
                Forall (paths_within base) (clip_data a1)) ->
  exists a2 added,
    parse_edl_file a1 (Some content) = (Ok (), a2)
    /\ clip_data a1 = clip_data self ++ added
    /\ clip_data a2 = clip_data a1 ++ added
    /\ generate_folders a2 fs = (Ok (), fs').
Proof.
  unfold parse_edl_file, of_option, generate_folders.
  intros Hparse Hrun Hall.
  destruct (Os.getcwd fs) as [base|e]; [|done].
  specialize (Hall base eq_refl).
  rewrite for_lines_append in Hparse.
  rewrite (for_lines_append _ (clip_data a1)).
  destruct (for_lines (readlines content) []) as [[[]|e] added];
    simpl in Hparse; [|done].
  injection Hparse as <-. simpl in *.
  eexists _, added. repeat split.
  unfold load_edl_data. cbn [clip_data].
  rewrite for_records_app. unfold io_seq. rewrite Hrun.
  apply (for_records_members _ _ _ _ _ Hrun).
  - intros r Hr. rewrite elem_of_app. by right.
  - by apply Forall_app in Hall as [_ ?].
Qed.

Lemma reopened_file_same_tree_witness :
  exists a2 added,
    parse_edl_file (parse_edl_file init (Some (edl_wav ++ edl_mov))).2
      (Some (edl_wav ++ edl_mov)) = (Ok (), a2)
    /\ clip_data (parse_edl_file init (Some (edl_wav ++ edl_mov))).2
       = clip_data init ++ added
    /\ clip_data a2
       = clip_data (parse_edl_file init (Some (edl_wav ++ edl_mov))).2
         ++ added
    /\ generate_folders a2 fs_home
       = (Ok (),
          (generate_folders
             (parse_edl_file init (Some (edl_wav ++ edl_mov))).2
             fs_home).2).
Proof.
  apply (reopened_file_same_tree init (edl_wav ++ edl_mov)
           (parse_edl_file init (Some (edl_wav ++ edl_mov))).2 fs_home).
  - reflexivity.
  - evaluated.
  - intros base [= <-]. short_paths.
Defined.
